(** * Stock dashboard (app.py): metrics, cache and validation

    A shallow embedding of [src/app.py].  Prices are exact rationals
    ([Q]); the not-a-number sentinel of a float column is [None].
    Rounding of binary floating point is not modelled: arithmetic is
    the arithmetic of the rationals, and equalities between computed
    numbers are stated with [Qeq] ([==]).  The embedding is meant for
    price series whose closes are positive (section 3 of the
    specification), where no division by zero arises.  The properties
    proved are those that do not rest on a value being exact: which
    cells are undefined, orders and signs, and equations between
    expressions evaluated in the same order.

    The text of the ticker field is a Python string, modelled as the
    sequence of its Unicode code points; the upper-case table of the
    Unicode database is a parameter. *)

From Stdlib Require Import QArith Qminmax Lia Lqa ZArith List Ascii String.
From stdpp Require Import base option list strings gmap.

Local Open Scope Q_scope.

(** ** Float cells and columns *)

(** A cell of a float column: a number, or NaN. *)
Abbreviation val := (option Q) (only parsing).

Definition NaN : val := None.

(** A pandas [Series] of floats. *)
Abbreviation Series := (list val) (only parsing).

(** Equality of cells up to the value of the rational; NaN only
    matches NaN (as two absent cells, not as IEEE comparison). *)
Definition veq (a b : val) : Prop :=
  match a, b with
  | Some x, Some y => x == y
  | None, None => True
  | _, _ => False
  end.

Infix "=v=" := veq (at level 70, no associativity).

(** NaN-propagating binary arithmetic on cells. *)
Definition vlift2 (f : Q -> Q -> Q) (a b : val) : val :=
  match a, b with
  | Some x, Some y => Some (f x y)
  | _, _ => None
  end.

Definition vadd : val -> val -> val := vlift2 Qplus.
Definition vsub : val -> val -> val := vlift2 Qminus.
Definition vdiv : val -> val -> val := vlift2 Qdiv.

(** Element-wise operations of two aligned columns ([a / b]) and of
    a column with a scalar ([a - 1], [1 + a]). *)
Fixpoint zip_vals (f : val -> val -> val) (a b : Series) : Series :=
  match a, b with
  | x :: a', y :: b' => f x y :: zip_vals f a' b'
  | _, _ => []
  end.

Definition series_div (a b : Series) : Series := zip_vals vdiv a b.
Definition series_sub_scalar (a : Series) (k : Q) : Series :=
  List.map (fun v => vsub v (Some k)) a.
Definition scalar_add_series (k : Q) (a : Series) : Series :=
  List.map (fun v => vadd (Some k) v) a.

(** [Series.shift(1)]: every value moves one row down, the first row
    becomes NaN and the last value drops out. *)
Definition shift (s : Series) : Series :=
  match s with
  | [] => []
  | _ :: _ => NaN :: removelast s
  end.

(** [Series.pct_change()]: [s / s.shift(1) - 1]. *)
Definition pct_change (s : Series) : Series :=
  series_sub_scalar (series_div s (shift s)) 1.

(** [numpy.cumprod] and [numpy.maximum.accumulate] on a column
    without NaN: the first output is the first input, each later
    output combines the previous output with the next input. *)
Fixpoint accumulate_from (f : Q -> Q -> Q) (acc : Q) (l : list Q) : list Q :=
  match l with
  | [] => []
  | x :: l' => f acc x :: accumulate_from f (f acc x) l'
  end.

Definition accumulate (f : Q -> Q -> Q) (l : list Q) : list Q :=
  match l with
  | [] => []
  | x :: l' => x :: accumulate_from f x l'
  end.

(** The mask of NaN rows is put back after accumulating. *)
Fixpoint restore_mask (s : Series) (r : list Q) : Series :=
  match s, r with
  | None :: s', _ :: r' => None :: restore_mask s' r'
  | Some _ :: s', x :: r' => Some x :: restore_mask s' r'
  | _, _ => []
  end.

Definition fillna (k : Q) (v : val) : Q :=
  match v with Some x => x | None => k end.

(** [Series.cumprod()] with the default [skipna=True]: NaN rows are
    replaced by 1, the products are accumulated, and the NaN rows are
    NaN again in the result. *)
Definition cumprod (s : Series) : Series :=
  restore_mask s (accumulate Qmult (List.map (fillna 1) s)).

(** [Series.cummax()] with the default [skipna=True].  A NaN row is
    skipped: it takes the running maximum so far (the first number of
    the column, while there is none) and is NaN in the result. *)
Fixpoint cummax_from (acc : val) (s : Series) : Series :=
  match s with
  | [] => []
  | None :: s' => None :: cummax_from acc s'
  | Some x :: s' =>
      let m := match acc with Some a => Qmax a x | None => x end in
      Some m :: cummax_from (Some m) s'
  end.

Definition cummax (s : Series) : Series := cummax_from None s.

(** The numbers of a column, NaN rows dropped. *)
Fixpoint dropna (s : Series) : list Q :=
  match s with
  | [] => []
  | None :: s' => dropna s'
  | Some x :: s' => x :: dropna s'
  end.

Definition Qsum (l : list Q) : Q := fold_left Qplus l 0.

Definition Qcount (l : list Q) : Q := inject_Z (Z.of_nat (length l)).

(** [Series.mean()], [skipna=True]: the sum of the numbers over their
    count, NaN when there is no number. *)
Definition series_mean (s : Series) : val :=
  let xs := dropna s in
  match xs with
  | [] => NaN
  | _ :: _ => Some (Qsum xs / Qcount xs)
  end.

(** [Series.min()], [skipna=True]: NaN when there is no number. *)
Definition series_min (s : Series) : val :=
  match dropna s with
  | [] => NaN
  | x :: xs => Some (fold_left Qmin xs x)
  end.

(** [Series.iloc[-1]]: the last row; [None] is the [IndexError] of an
    empty column. *)
Definition iloc_last (s : Series) : option val := last s.

(** [Series.var(ddof=1)]: with [n] numbers of mean [avg], the sum of
    the squares [(avg - x)^2] over [n - 1]; NaN when [n <= 1]. *)
Definition series_var (s : Series) : val :=
  let xs := dropna s in
  if (length xs <=? 1)%nat then NaN
  else
    let avg := Qsum xs / Qcount xs in
    Some (Qsum (List.map (fun x => (avg - x) * (avg - x)) xs) / (Qcount xs - 1)).

(** [Series.std()]: the square root of [Series.var(ddof=1)].  The
    square root of the numeric library is a parameter. *)
Definition series_std (sqrt : Q -> Q) (s : Series) : val :=
  match series_var s with
  | Some v => Some (sqrt v)
  | None => NaN
  end.

(** ** The data frame of [get_stock_data] *)

(** Dates are day numbers (proleptic ordinals), compared as integers. *)
Abbreviation date := Z (only parsing).

(** A row of the downloaded table: the date of the index and the
    close of that day. *)
Abbreviation Row := (date * Q)%type (only parsing).

Record DataFrame : Type := mkDataFrame {
  index : list date;
  Close : Series;
  Daily_Return : Series;
  Cumulative_Return : Series;
  Max_Drawdown : Series
}.

(** Lines 33-35: the three derived columns.
<<
    data["Daily Return"] = data["Close"].pct_change()
    data["Cumulative Return"] = (1 + data["Daily Return"]).cumprod() - 1
    data["Max Drawdown"] = (data["Close"] / data["Close"].cummax()) - 1
>> *)
Definition add_columns (data : list Row) : DataFrame :=
  let close := List.map (fun r => Some (snd r)) data in
  let daily := pct_change close in
  {| index := List.map fst data;
     Close := close;
     Daily_Return := daily;
     Cumulative_Return := series_sub_scalar (cumprod (scalar_add_series 1 daily)) 1;
     Max_Drawdown := series_sub_scalar (series_div close (cummax close)) 1 |}.

(** The body of [get_stock_data] once the download has returned:
    [None] for an empty table, the table with its derived columns
    otherwise. *)
Definition process_download (data : list Row) : option DataFrame :=
  match data with
  | [] => None
  | _ :: _ => Some (add_columns data)
  end.

(** Lines 70-73: the four summary numbers. *)
Definition total_return (df : DataFrame) : option val :=
  iloc_last (Cumulative_Return df).
Definition avg_daily_return (df : DataFrame) : val :=
  series_mean (Daily_Return df).
Definition volatility (sqrt : Q -> Q) (df : DataFrame) : val :=
  series_std sqrt (Daily_Return df).
Definition max_drawdown (df : DataFrame) : val :=
  series_min (Max_Drawdown df).

Record Metrics : Type := mkMetrics {
  TotalReturn : val;
  AvgDailyReturn : val;
  Volatility : val;
  MaxDrawdown : val
}.

(** ** The table colours *)

(** The comparison [a > b] of two numbers. *)
Definition Qgtb (a b : Q) : bool := negb (Qle_bool a b).

(** Lines 87-91.
<<
    def highlight_returns(val):
        if pd.isna(val): return ""
        color = "green" if val > 0 else "red"
        return f"color: {color}"
>> *)
Definition highlight_returns (v : val) : string :=
  match v with
  | None => ""
  | Some x =>
      let color := if Qgtb x 0 then "green" else "red" in
      "color: " +:+ color
  end%string.

(** Lines 93-96: the style of each row of the table, which is
    [highlight_returns] applied to the cells of the daily return. *)
Definition table_styles (df : DataFrame) : list string :=
  List.map highlight_returns (Daily_Return df).

(** ** The ticker field *)

(** A Python [str]: the sequence of its Unicode code points. *)
Abbreviation str := (list N) (only parsing).

(** The code points of a text written in ASCII. *)
Definition codepoints (s : string) : str :=
  List.map N_of_ascii (list_ascii_of_string s).

(** [str.isspace()] on one character, which is also the white space
    that [str.strip()] removes: the ASCII characters 9-13, 28-31 and
    the space, and beyond ASCII U+0085, U+00A0, U+1680, U+2000 to
    U+200A, U+2028, U+2029, U+202F, U+205F and U+3000. *)
Definition isspace (c : N) : bool :=
  (((9 <=? c) && (c <=? 13)) || ((28 <=? c) && (c <=? 32))
   || (c =? 133) || (c =? 160) || (c =? 5760)
   || ((8192 <=? c) && (c <=? 8202))
   || (c =? 8232) || (c =? 8233) || (c =? 8239) || (c =? 8287)
   || (c =? 12288))%N.

(** The upper case of an ASCII character: the letters a-z move to
    A-Z. *)
Definition upper_ascii (c : N) : N :=
  if ((97 <=? c) && (c <=? 122))%N then (c - 32)%N else c.

(** The full upper-case mapping of the Unicode database for the
    characters beyond ASCII, one to three code points for a character
    (U+00E9 gives U+00C9, U+00DF gives "SS").  The database is part
    of the Python runtime: the table is a parameter. *)
Definition UpperTable : Type := N -> list N.

Definition toupper_full (table : UpperTable) (c : N) : list N :=
  if (c <? 128)%N then [upper_ascii c] else table c.

(** [str.upper()]: every character replaced by its upper case. *)
Definition upper (table : UpperTable) (s : str) : str :=
  flat_map (toupper_full table) s.

Fixpoint lstrip_chars (l : str) : str :=
  match l with
  | [] => []
  | c :: l' => if isspace c then lstrip_chars l' else l
  end.

Definition rstrip_chars (l : str) : str :=
  rev (lstrip_chars (rev l)).

(** [str.strip()]: white space removed at both ends. *)
Definition strip (s : str) : str := rstrip_chars (lstrip_chars s).

(** Line 14: [st.text_input(...).upper().strip()]. *)
Definition ticker (table : UpperTable) (text_input : str) : str :=
  strip (upper table text_input).

(** ** The date gate *)

(** Line 23: the condition under which the script reports an invalid
    range and stops. *)
Definition invalid_range (start_date end_date today : date) : bool :=
  ((end_date <? start_date) || (today <? start_date) || (today <? end_date))%Z.

Inductive validation : Type := Ok | RangeError.

Definition validate (start_date end_date today : date) : validation :=
  if invalid_range start_date end_date today then RangeError else Ok.

(** ** The cached download *)

(** The arguments of [get_stock_data], which are the key of its cache. *)
Abbreviation Key := (str * date * date)%type (only parsing).

(** [ttl=3600]: seconds an entry stays valid. *)
Definition ttl : Z := 3600.

(** What the cache keeps for a key: the value the function returned
    ([None] when the download was empty) and the time it was stored. *)
Record CacheEntry : Type := mkEntry {
  value : option DataFrame;
  stored_at : Z
}.

(** The state a run of the script reads and leaves behind: the cache
    of [get_stock_data] and the log of the calls of [yf.download]
    (arguments and time of the call). *)
Record AppState : Type := mkState {
  cache : gmap Key CacheEntry;
  downloads : list (Key * Z)
}.

Definition empty_state : AppState := {| cache := ∅; downloads := [] |}.

(** The data provider [yf.download]: the rows it returns for a
    ticker and a range of dates when it is asked at a given time. *)
Definition Provider : Type := str -> date -> date -> Z -> list Row.

(** Modelled from the spec: the memoizing decorator
    [@st.cache_data(ttl=3600)] belongs to the Streamlit library and is
    not part of the sources; its behaviour is taken from section 4.2.
    A call is a hit when the key has an entry whose age at [now] is
    below [ttl]: the stored value is returned and the provider is not
    called.  Otherwise it is a miss: the body of [get_stock_data] runs
    (lines 30-36), its result, empty or not, is stored with the time
    [now], and is returned. *)
Definition get_stock_data (yf_download : Provider)
    (ticker : str) (start end_ : date) (now : Z) (st : AppState)
  : option DataFrame * AppState :=
  let key := (ticker, start, end_) in
  let miss :=
    let data := yf_download ticker start end_ now in
    let result := process_download data in
    (result,
     {| cache := <[key := {| value := result; stored_at := now |}]> (cache st);
        downloads := downloads st ++ [(key, now)] |}) in
  match cache st !! key with
  | Some e => if (now - stored_at e <? ttl)%Z then (value e, st) else miss
  | None => miss
  end.

(** Whether a call at [now] is served from the cache. *)
Definition hit (st : AppState) (key : Key) (now : Z) : bool :=
  match cache st !! key with
  | Some e => (now - stored_at e <? ttl)%Z
  | None => false
  end.

(** ** The metrics of a series *)

(** Lines 70-73 on a data frame. *)
Definition computeScalars (sqrt : Q -> Q) (df : DataFrame) : option Metrics :=
  match total_return df with
  | None => None
  | Some tr =>
      Some {| TotalReturn := tr;
              AvgDailyReturn := avg_daily_return df;
              Volatility := volatility sqrt df;
              MaxDrawdown := max_drawdown df |}
  end.

(** The metrics of a downloaded series: the data frame with its
    derived columns and the four summary numbers. *)
Inductive metrics_result : Type :=
| NoDataError
| IndexError
| Result (df : DataFrame) (m : Metrics).

Definition render (sqrt : Q -> Q) (odf : option DataFrame) : metrics_result :=
  match odf with
  | None => NoDataError
  | Some df =>
      match computeScalars sqrt df with
      | None => IndexError
      | Some m => Result df m
      end
  end.

Definition computeMetrics (sqrt : Q -> Q) (series : list Row) : metrics_result :=
  render sqrt (process_download series).

(** ** One run of the script *)

(** What the page shows after a run. *)
Record Page : Type := mkPage {
  page_df : DataFrame;
  page_metrics : Metrics;
  page_styles : list string
}.

(** How a run ends: the message of line 24 and [st.stop()], the
    message of line 42 and [st.stop()], the rendered page, or the
    [IndexError] that [iloc[-1]] raises on a column without rows. *)
Inductive outcome : Type :=
| StopRangeError
| StopNoDataError
| Rendered (p : Page)
| RaisedIndexError.

(** The script from top to bottom, for the text of the ticker field,
    the two date fields, the date of the day and the time of the run. *)
Definition run (sqrt : Q -> Q) (table : UpperTable) (yf_download : Provider)
    (text_input : str) (start_date end_date today : date) (now : Z)
    (st : AppState) : outcome * AppState :=
  let ticker := ticker table text_input in
  match validate start_date end_date today with
  | RangeError => (StopRangeError, st)
  | Ok =>
      let '(df, st') := get_stock_data yf_download ticker start_date end_date now st in
      match render sqrt df with
      | NoDataError => (StopNoDataError, st')
      | IndexError => (RaisedIndexError, st')
      | Result df m =>
          (Rendered {| page_df := df; page_metrics := m;
                       page_styles := table_styles df |},
           st')
      end
  end.

(** ** The quantities of the specification *)

(** These follow the words of section 3 of the specification, to be
    compared with the columns and numbers computed above. *)

(** The closes of a downloaded series. *)
Definition closes (data : list Row) : list Q := List.map snd data.

(** A price series has positive closes. *)
Definition positive_closes (data : list Row) : Prop :=
  Forall (fun r => 0 < snd r) data.



(** [m] is the greatest of the numbers of [l]. *)
Definition is_max_of (m : Q) (l : list Q) : Prop :=
  Exists (fun x => x == m) l /\ Forall (fun x => x <= m) l.

(** [m] is the least of the numbers of [l]. *)
Definition is_min_of (m : Q) (l : list Q) : Prop :=
  Exists (fun x => x == m) l /\ Forall (fun x => m <= x) l.

(** "max(Close[0..i])": the greatest close of the rows 0 to [i]. *)
Definition spec_running_max (cs : list Q) (i : nat) : option Q :=
  match take (S i) cs with
  | [] => None
  | c :: cs' => Some (fold_left Qmax cs' c)
  end.

(** "mean": the sum over the count; undefined for no number. *)
Definition spec_mean (l : list Q) : val :=
  match l with
  | [] => NaN
  | _ :: _ => Some (Qsum l / Qcount l)
  end.


(** The daily returns of the rows after a row of close [prev]. *)
Fixpoint returns_from (prev : Q) (cs : list Q) : list Q :=
  match cs with
  | [] => []
  | c :: cs' => (c / prev - 1) :: returns_from c cs'
  end.

(** The drawdowns of the rows after rows of greatest close [m]. *)
Fixpoint drawdowns_from (m : Q) (cs : list Q) : list Q :=
  match cs with
  | [] => []
  | c :: cs' => (c / Qmax m c - 1) :: drawdowns_from (Qmax m c) cs'
  end.



(** A text of ASCII characters only. *)
Definition ascii_text (s : str) : Prop := Forall (fun c => (c < 128)%N) s.

(** Two ticker texts that differ in the case of their letters and in
    the white space around them: each is a core between two runs of
    white space, and the two cores have the same upper-case form. *)
Definition all_space (s : str) : Prop :=
  Forall (fun c => isspace c = true) s.


(** ** Data for the examples *)

(** A square root to six decimals, to run the examples. *)
Definition sqrt_6dp (q : Q) : Q :=
  inject_Z (Z.sqrt (Qnum q * 10 ^ 12 / Zpos (Qden q))) / inject_Z (10 ^ 6).

Definition rows_100_110_99 : list Row := [(1%Z, 100); (2%Z, 110); (3%Z, 99)].
Definition rows_100_120_90 : list Row := [(1%Z, 100); (2%Z, 120); (3%Z, 90)].
Definition rows_100 : list Row := [(1%Z, 100)].
Definition rows_100_100_90 : list Row := [(1%Z, 100); (2%Z, 100); (3%Z, 90)].

(** The texts of the examples. *)
Definition AAPL : str := codepoints "AAPL".
Definition MSFT : str := codepoints "MSFT".
Definition aapl_padded : str := codepoints "aapl ".


(** An excerpt of the upper-case table: U+00E9 gives U+00C9, U+00DF
    gives "SS", and the other characters are left as they are. *)
Definition upper_table_excerpt : UpperTable :=
  fun c => if (c =? 233)%N then [201%N]
           else if (c =? 223)%N then [83%N; 83%N] else [c].

(** A provider whose answer changes with time: it has three rows for
    every request until the time 3600, and nothing afterwards. *)
Definition provider_until_3600 : Provider :=
  fun _ _ _ now => if (now <? 3600)%Z then rows_100_110_99 else [].

(** The state left by a first call for AAPL at the time 0. *)
Definition state_after_call_at_0 : AppState :=
  snd (get_stock_data provider_until_3600 AAPL 0 1 0 empty_state).

(** A provider that always has the same three rows. *)
Definition provider_const : Provider := fun _ _ _ _ => rows_100_110_99.

(** ** The date fields, the chart and the table *)

(** Lines 18 and 20: the values of the two date fields when the user
    has not touched them, [date.today() - timedelta(days=365)] and
    [date.today()]. *)
Definition default_start_date (today : date) : date := (today - 365)%Z.
Definition default_end_date (today : date) : date := today.

(** Pairs of the cells of two columns, row by row. *)
Fixpoint zip_rows {A B : Type} (a : list A) (b : list B) : list (A * B) :=
  match a, b with
  | x :: a', y :: b' => (x, y) :: zip_rows a' b'
  | _, _ => []
  end.

(** Lines 48-55: the points of the line chart, [x=df.index] against
    [y="Close"]. *)
Definition fig (df : DataFrame) : list (date * val) :=
  zip_rows (index df) (Close df).

(** A row of the table: the date, the close price and the daily
    return. *)
Record TableRow : Type := mkTableRow {
  Date : date;
  Close_Price : val;
  Table_Daily_Return : val
}.

(** Lines 84-85: the two columns [Close] and [Daily Return], the
    index turned into the column [Date], and [Close] renamed to
    [Close Price]. *)
Definition display_df (df : DataFrame) : list TableRow :=
  List.map (fun r => {| Date := fst r; Close_Price := fst (snd r);
                        Table_Daily_Return := snd (snd r) |})
    (zip_rows (index df) (zip_rows (Close df) (Daily_Return df))).

(** ** Notions used to state the further properties *)

(** Every number of a column satisfies [P]; NaN rows are not
    constrained. *)
Definition numbers_satisfy (P : Q -> Prop) (s : Series) : Prop :=
  Forall (fun v => match v with Some x => P x | None => True end) s.

(** The same series in another unit: every close multiplied by [k]. *)
Definition scale_closes (k : Q) (data : list Row) : list Row :=
  List.map (fun r => (fst r, k * snd r)) data.

(** Each number of [cs] is at least the one before it, the first at
    least [prev]. *)
Fixpoint rises_from (prev : Q) (cs : list Q) : Prop :=
  match cs with
  | [] => True
  | c :: cs' => prev <= c /\ rises_from c cs'
  end.

(** No close is below the close of the row before. *)
Definition never_falls (cs : list Q) : Prop :=
  match cs with
  | [] => True
  | c :: cs' => rises_from c cs'
  end.

(** Every entry of the cache was stored at [now] or before, and holds
    what the body of [get_stock_data] made of the provider's answer
    for its key at the time it was stored. *)
Definition cache_fresh (P : Provider) (st : AppState) (now : Z) : Prop :=
  forall (tk : str) (s e : date) (en : CacheEntry),
    cache st !! (tk, s, e) = Some en ->
    (stored_at en <= now)%Z /\
    value en = process_download (P tk s e (stored_at en)).

(** Two downloads of the log for the same key are at least [ttl]
    apart, and the cache has, for every download of the log, an
    entry of its key stored at the time of that download or later. *)
Definition downloads_spaced (st : AppState) : Prop :=
  (forall (i j : nat) (key : Key) (t1 t2 : Z),
     (i < j)%nat ->
     downloads st !! i = Some (key, t1) -> downloads st !! j = Some (key, t2) ->
     (t1 + ttl <= t2)%Z) /\
  (forall (i : nat) (key : Key) (t : Z),
     downloads st !! i = Some (key, t) ->
     exists en, cache st !! key = Some en /\ (t <= stored_at en)%Z).

(** * Properties *)

(** ** Columns of a series of closes *)

Lemma lookup_map {A B : Type} (f : A -> B) (l : list A) (i : nat) :
  List.map f l !! i = option_map f (l !! i).
Proof.
  revert i. induction l as [|x l IH]; intros [|i]; simpl; auto.
Qed.

Lemma closes_map_Some (data : list Row) :
  List.map (fun r => Some (snd r)) data = List.map Some (closes data).
Proof. unfold closes. now rewrite List.map_map. Qed.

Lemma quotients_after (p : Q) (cs : list Q) :
  series_sub_scalar
    (zip_vals vdiv (List.map Some cs) (removelast (Some p :: List.map Some cs))) 1
  = List.map Some (returns_from p cs).
Proof.
  revert p. induction cs as [|c cs IH]; intros p; [reflexivity|].
  cbn [List.map removelast zip_vals series_sub_scalar returns_from].
  f_equal. apply IH.
Qed.

Lemma pct_change_closes (c : Q) (cs : list Q) :
  pct_change (List.map Some (c :: cs)) = NaN :: List.map Some (returns_from c cs).
Proof.
  unfold pct_change, series_div, shift.
  cbn [List.map zip_vals series_sub_scalar].
  f_equal. apply (quotients_after c cs).
Qed.

Lemma length_returns_from (p : Q) (cs : list Q) :
  length (returns_from p cs) = length cs.
Proof. revert p. induction cs; intros; simpl; auto. Qed.

Lemma lookup_returns_from (p : Q) (cs : list Q) (i : nat) (c q : Q) :
  (p :: cs) !! i = Some q -> cs !! i = Some c ->
  returns_from p cs !! i = Some (c / q - 1).
Proof.
  revert p i. induction cs as [|x cs IH]; intros p i Hq Hc; [discriminate|].
  destruct i as [|i]; simpl in *.
  - congruence.
  - now apply IH.
Qed.

Lemma Daily_Return_closes (d : date) (c : Q) (data : list Row) :
  Daily_Return (add_columns ((d, c) :: data))
  = NaN :: List.map Some (returns_from c (closes data)).
Proof.
  unfold add_columns. cbn [Daily_Return].
  rewrite closes_map_Some. apply pct_change_closes.
Qed.

Lemma cumprod_after (acc : Q) (rs : list Q) :
  restore_mask
    (scalar_add_series 1 (List.map Some rs))
    (accumulate_from Qmult acc
       (List.map (fillna 1) (scalar_add_series 1 (List.map Some rs))))
  = List.map Some (accumulate_from Qmult acc (List.map (Qplus 1) rs)).
Proof.
  revert acc. induction rs as [|r rs IH]; intros acc; [reflexivity|].
  cbn [List.map scalar_add_series accumulate_from restore_mask vadd vlift2 fillna].
  f_equal. apply IH.
Qed.

Lemma sub_scalar_Some (l : list Q) (k : Q) :
  series_sub_scalar (List.map Some l) k = List.map Some (List.map (fun x => x - k) l).
Proof.
  unfold series_sub_scalar. rewrite !List.map_map. reflexivity.
Qed.

Lemma Cumulative_Return_closes (d : date) (c : Q) (data : list Row) :
  Cumulative_Return (add_columns ((d, c) :: data))
  = NaN :: List.map Some
             (List.map (fun x => x - 1)
                (accumulate_from Qmult 1
                   (List.map (Qplus 1) (returns_from c (closes data))))).
Proof.
  unfold add_columns. cbn [Cumulative_Return].
  rewrite closes_map_Some.
  change (closes ((d, c) :: data)) with (c :: closes data).
  rewrite pct_change_closes.
  unfold cumprod.
  cbn [scalar_add_series List.map vadd vlift2 fillna accumulate restore_mask
       series_sub_scalar vsub NaN].
  f_equal.
  rewrite <- sub_scalar_Some. unfold series_sub_scalar. f_equal.
  apply (cumprod_after 1).
Qed.

Lemma drawdown_after (m : Q) (cs : list Q) :
  series_sub_scalar
    (series_div (List.map Some cs) (cummax_from (Some m) (List.map Some cs))) 1
  = List.map Some (drawdowns_from m cs).
Proof.
  revert m. induction cs as [|c cs IH]; intros m; [reflexivity|].
  cbn [List.map cummax_from series_div zip_vals series_sub_scalar drawdowns_from].
  f_equal. apply IH.
Qed.

Lemma Max_Drawdown_closes (d : date) (c : Q) (data : list Row) :
  Max_Drawdown (add_columns ((d, c) :: data))
  = Some (c / c - 1) :: List.map Some (drawdowns_from c (closes data)).
Proof.
  unfold add_columns. cbn [Max_Drawdown].
  rewrite closes_map_Some.
  change (closes ((d, c) :: data)) with (c :: closes data).
  cbn [List.map cummax cummax_from series_div zip_vals series_sub_scalar].
  f_equal. apply drawdown_after.
Qed.

Lemma length_accumulate_from (f : Q -> Q -> Q) (acc : Q) (l : list Q) :
  length (accumulate_from f acc l) = length l.
Proof. revert acc. induction l; intros; simpl; auto. Qed.

Lemma length_drawdowns_from (m : Q) (cs : list Q) :
  length (drawdowns_from m cs) = length cs.
Proof. revert m. induction cs; intros; simpl; auto. Qed.

Lemma length_closes (data : list Row) : length (closes data) = length data.
Proof. apply length_map. Qed.

Create Rewrite HintDb series_length.
#[local] Hint Rewrite @List.length_map length_returns_from length_drawdowns_from
  length_accumulate_from length_closes : series_length.

(** The summary numbers of a series that has rows: the run does not
    raise, and each number is the summary of its column. *)
Lemma computeMetrics_rows (sqrt : Q -> Q) (r : Row) (data : list Row) :
  exists tr : val,
    last (Cumulative_Return (add_columns (r :: data))) = Some tr /\
    computeMetrics sqrt (r :: data)
    = Result (add_columns (r :: data))
        {| TotalReturn := tr;
           AvgDailyReturn := avg_daily_return (add_columns (r :: data));
           Volatility := volatility sqrt (add_columns (r :: data));
           MaxDrawdown := max_drawdown (add_columns (r :: data)) |}.
Proof.
  unfold computeMetrics. cbn [process_download render].
  unfold computeScalars, total_return, iloc_last.
  destruct (last (Cumulative_Return (add_columns (r :: data)))) as [tr|] eqn:E.
  - exists tr. split; reflexivity.
  - exfalso. apply last_None in E. destruct r as [d c].
    pose proof (Cumulative_Return_closes d c data) as H.
    assert (X : [] = NaN :: List.map Some
             (List.map (fun x => x - 1)
                (accumulate_from Qmult 1
                   (List.map (Qplus 1) (returns_from c (closes data))))))
      by (etransitivity; [symmetry; exact E | exact H]).
    discriminate X.
Qed.

Ltac positive_rows :=
  repeat (apply List.Forall_cons; [reflexivity|]); apply List.Forall_nil.

(** ** Daily returns *)

(** C3.  For a series that has rows, of positive closes, the column
    of daily returns of the result of [computeMetrics] is as long as
    the series, its row 0 is undefined, and its row [i >= 1] is
    [Close[i] / Close[i-1] - 1]. *)
Theorem daily_return_is_pct_change (sqrt : Q -> Q) (data : list Row) :
  data <> [] -> positive_closes data ->
  exists df m,
    computeMetrics sqrt data = Result df m /\
    length (Daily_Return df) = length data /\
    Daily_Return df !! 0%nat = Some NaN /\
    forall (i : nat) (c p : Q),
      (1 <= i)%nat ->
      closes data !! i = Some c -> closes data !! (i - 1)%nat = Some p ->
      Daily_Return df !! i = Some (Some (c / p - 1)).
Proof.
  intros Hne _. destruct data as [|[d c0] data]; [contradiction|].
  destruct (computeMetrics_rows sqrt (d, c0) data) as (tr & _ & ->).
  eexists _, _. split; [reflexivity|].
  rewrite Daily_Return_closes. split; [|split].
  - cbn [length]. now autorewrite with series_length.
  - reflexivity.
  - intros [|i] c p Hi Hc Hp; [lia|].
    replace (S i - 1)%nat with i in Hp by lia.
    change ((NaN :: List.map Some (returns_from c0 (closes data))) !! S i)
      with (List.map Some (returns_from c0 (closes data)) !! i).
    rewrite lookup_map.
    change (closes ((d, c0) :: data)) with (c0 :: closes data) in Hc, Hp.
    change ((c0 :: closes data) !! S i) with (closes data !! i) in Hc.
    now rewrite (lookup_returns_from c0 (closes data) i c p Hp Hc).
Qed.

Lemma daily_return_is_pct_change_witness :
  exists df m,
    computeMetrics sqrt_6dp rows_100_110_99 = Result df m /\
    length (Daily_Return df) = length rows_100_110_99 /\
    Daily_Return df !! 0%nat = Some NaN /\
    forall (i : nat) (c p : Q),
      (1 <= i)%nat ->
      closes rows_100_110_99 !! i = Some c ->
      closes rows_100_110_99 !! (i - 1)%nat = Some p ->
      Daily_Return df !! i = Some (Some (c / p - 1)).
Proof.
  apply (daily_return_is_pct_change sqrt_6dp rows_100_110_99).
  - discriminate.
  - unfold rows_100_110_99. positive_rows.
Defined.

(** ** Cumulative returns *)



Lemma dropna_map_Some (l : list Q) : dropna (List.map Some l) = l.
Proof. induction l; simpl; congruence. Qed.






(** ** Drawdowns *)

Lemma fold_left_Qmax_is_max (l : list Q) (a : Q) :
  is_max_of (fold_left Qmax l a) (a :: l).
Proof.
  revert a. induction l as [|x l IH]; intros a.
  - split.
    + apply Exists_cons_hd. reflexivity.
    + apply List.Forall_cons; [apply Qle_refl | apply List.Forall_nil].
  - cbn [fold_left]. destruct (IH (Qmax a x)) as [Hex Hall].
    inversion Hall as [|? ? Hm Hl]; subst. split.
    + inversion Hex as [? ? Hhd|? ? Htl]; subst.
      * destruct (Q.max_spec a x) as [[_ E]|[_ E]].
        -- apply Exists_cons_tl, Exists_cons_hd.
           apply Qeq_trans with (Qmax a x); [apply Qeq_sym, E | exact Hhd].
        -- apply Exists_cons_hd.
           apply Qeq_trans with (Qmax a x); [apply Qeq_sym, E | exact Hhd].
      * now apply Exists_cons_tl, Exists_cons_tl.
    + apply List.Forall_cons; [|apply List.Forall_cons; [|exact Hl]].
      * eapply Qle_trans; [apply Q.le_max_l | exact Hm].
      * eapply Qle_trans; [apply Q.le_max_r | exact Hm].
Qed.

Lemma lookup_drawdowns_from (cs : list Q) (m : Q) (j : nat) (c : Q) :
  cs !! j = Some c ->
  drawdowns_from m cs !! j = Some (c / fold_left Qmax (take (S j) cs) m - 1).
Proof.
  revert m j. induction cs as [|x cs IH]; intros m j Hc; [discriminate|].
  destruct j as [|j].
  - injection Hc as ->. reflexivity.
  - apply (IH (Qmax m x) j Hc).
Qed.

Lemma is_max_of_positive (M : Q) (l : list Q) :
  is_max_of M l -> Forall (fun x => 0 < x) l -> 0 < M.
Proof.
  intros [Hex _] Hpos. apply List.Exists_exists in Hex as (x & Hin & Hx).
  rewrite <- Hx. rewrite List.Forall_forall in Hpos. now apply Hpos.
Qed.

Lemma ratio_to_max (c M : Q) :
  0 < M -> c <= M ->
  c / M - 1 <= 0 /\ (c / M - 1 == 0 <-> c == M).
Proof.
  intros HM Hle.
  assert (HM0 : ~ M == 0) by (intros E; rewrite E in HM; discriminate).
  assert (Hq : c / M <= 1).
  { apply Qle_shift_div_r; [exact HM|]. now rewrite Qmult_1_l. }
  split.
  - revert Hq. generalize (c / M). intros q Hq. lra.
  - split; intros E.
    + assert (E1 : c / M == 1).
      { revert E. generalize (c / M). intros q E. lra. }
      rewrite <- (Qmult_div_r c M HM0), E1. ring.
    + rewrite E. field. exact HM0.
Qed.

Lemma positive_closes_Forall (data : list Row) :
  positive_closes data -> Forall (fun x => 0 < x) (closes data).
Proof.
  unfold positive_closes, closes. intros H.
  induction H; simpl; constructor; auto.
Qed.

Lemma Forall_take {A : Type} (P : A -> Prop) (l : list A) (n : nat) :
  Forall P l -> Forall P (take n l).
Proof.
  intros H. revert n. induction H; intros [|n]; simpl; constructor; auto.
Qed.

Lemma lookup_Forall {A : Type} (P : A -> Prop) (l : list A) (i : nat) (x : A) :
  Forall P l -> l !! i = Some x -> P x.
Proof.
  intros H. revert i. induction H; intros [|i] E; simpl in E; try discriminate.
  - now injection E as <-.
  - eauto.
Qed.

Lemma is_max_of_last_le (M : Q) (l : list Q) (i : nat) (c : Q) :
  is_max_of M (take (S i) l) -> l !! i = Some c -> c <= M.
Proof.
  intros [_ Hall] Hc.
  apply (lookup_Forall (fun x => x <= M) (take (S i) l) i c Hall).
  rewrite lookup_take_lt by lia. exact Hc.
Qed.

Lemma running_max_rows (c0 : Q) (cs : list Q) (i : nat) :
  spec_running_max (c0 :: cs) i = Some (fold_left Qmax (take i cs) c0) /\
  is_max_of (fold_left Qmax (take i cs) c0) (take (S i) (c0 :: cs)).
Proof.
  split; [reflexivity|]. apply fold_left_Qmax_is_max.
Qed.

(** C4.  For a series that has rows, of positive closes, the row [i]
    of the drawdown column is [Close[i] / max(Close[0..i]) - 1]; it is
    at most 0, and it is 0 exactly when [Close[i]] is the greatest
    close so far.  The closes 100, 120, 90 give 0, 0, -0.25. *)
Theorem drawdown_is_ratio_to_running_max (sqrt : Q -> Q) (data : list Row) :
  data <> [] -> positive_closes data ->
  exists df m,
    computeMetrics sqrt data = Result df m /\
    length (Max_Drawdown df) = length data /\
    (forall (i : nat) (c : Q),
       closes data !! i = Some c ->
       exists M d : Q,
         spec_running_max (closes data) i = Some M /\
         is_max_of M (take (S i) (closes data)) /\
         Max_Drawdown df !! i = Some (Some d) /\
         d = c / M - 1 /\ d <= 0 /\ (d == 0 <-> c == M)) /\
    Forall2 veq (Max_Drawdown (add_columns rows_100_120_90))
      [Some 0; Some 0; Some (- (1 # 4))].
Proof.
  intros Hne Hpos. destruct data as [|[d0 c0] data]; [contradiction|].
  destruct (computeMetrics_rows sqrt (d0, c0) data) as (tr & _ & ->).
  eexists _, _. split; [reflexivity|].
  rewrite Max_Drawdown_closes. split; [|split].
  - cbn [length]. now autorewrite with series_length.
  - intros i c Hc.
    apply positive_closes_Forall in Hpos.
    change (closes ((d0, c0) :: data)) with (c0 :: closes data) in *.
    destruct (running_max_rows c0 (closes data) i) as [HM Hmax].
    exists (fold_left Qmax (take i (closes data)) c0),
      (c / fold_left Qmax (take i (closes data)) c0 - 1).
    split; [exact HM|]. split; [exact Hmax|].
    split; [|split; [reflexivity|]].
    + destruct i as [|i].
      * injection Hc as ->. reflexivity.
      * change ((Some (c0 / c0 - 1) :: List.map Some (drawdowns_from c0 (closes data))) !! S i)
          with (List.map Some (drawdowns_from c0 (closes data)) !! i).
        rewrite lookup_map.
        now rewrite (lookup_drawdowns_from (closes data) c0 i c Hc).
    + apply ratio_to_max.
      * apply (is_max_of_positive _ _ Hmax). now apply Forall_take.
      * now apply (is_max_of_last_le _ (c0 :: closes data) i c Hmax).
  - vm_compute. repeat constructor.
Qed.

Lemma drawdown_is_ratio_to_running_max_witness :
  exists df m,
    computeMetrics sqrt_6dp rows_100_120_90 = Result df m /\
    length (Max_Drawdown df) = length rows_100_120_90 /\
    (forall (i : nat) (c : Q),
       closes rows_100_120_90 !! i = Some c ->
       exists M d : Q,
         spec_running_max (closes rows_100_120_90) i = Some M /\
         is_max_of M (take (S i) (closes rows_100_120_90)) /\
         Max_Drawdown df !! i = Some (Some d) /\
         d = c / M - 1 /\ d <= 0 /\ (d == 0 <-> c == M)) /\
    Forall2 veq (Max_Drawdown (add_columns rows_100_120_90))
      [Some 0; Some 0; Some (- (1 # 4))].
Proof.
  apply (drawdown_is_ratio_to_running_max sqrt_6dp rows_100_120_90).
  - discriminate.
  - unfold rows_100_120_90. positive_rows.
Defined.

(** ** A series of one row *)

(** C1, the claim as stated fails: for the single close 100 the
    maximum drawdown is not undefined (it is 0, the drawdown of the
    only row). *)
Lemma single_point_max_drawdown_is_defined :
  ~ (forall df m,
       computeMetrics sqrt_6dp rows_100 = Result df m ->
       (TotalReturn m = NaN /\ AvgDailyReturn m = NaN /\
        Volatility m = NaN /\ MaxDrawdown m = NaN) /\
       (length (Daily_Return df) = 1%nat /\ Daily_Return df !! 0%nat = Some NaN) /\
       (length (Cumulative_Return df) = 1%nat /\
        Cumulative_Return df !! 0%nat = Some NaN) /\
       (length (Max_Drawdown df) = 1%nat /\ Max_Drawdown df !! 0%nat = Some NaN)).
Proof.
  intros H.
  destruct (H _ _ eq_refl) as ((_ & _ & _ & E) & _).
  vm_compute in E. discriminate E.
Qed.

(** C1, amended.  For a series of exactly one row, of positive close,
    [computeMetrics] returns a result in which the total return, the
    average daily return and the volatility are undefined and the
    maximum drawdown is 0; each derived column has one row, which is
    undefined for the daily return and the cumulative return and is 0
    for the drawdown. *)
Theorem single_point_metrics (sqrt : Q -> Q) (d : date) (c : Q) :
  0 < c ->
  exists df m,
    computeMetrics sqrt [(d, c)] = Result df m /\
    TotalReturn m = NaN /\ AvgDailyReturn m = NaN /\ Volatility m = NaN /\
    MaxDrawdown m =v= Some 0 /\
    Daily_Return df = [NaN] /\
    Cumulative_Return df = [NaN] /\
    exists x : Q, Max_Drawdown df = [Some x] /\ x == 0.
Proof.
  intros Hc.
  assert (Hc0 : ~ c == 0) by (intros E; rewrite E in Hc; discriminate).
  eexists _, _. split; [reflexivity|].
  cbn [TotalReturn AvgDailyReturn Volatility MaxDrawdown].
  repeat split.
  - unfold max_drawdown. rewrite Max_Drawdown_closes.
    cbn [closes List.map drawdowns_from series_min dropna fold_left veq].
    field. exact Hc0.
  - exists (c / c - 1). split; [reflexivity|]. field. exact Hc0.
Qed.

Lemma single_point_metrics_witness :
  exists df m,
    computeMetrics sqrt_6dp [(1%Z, 100)] = Result df m /\
    TotalReturn m = NaN /\ AvgDailyReturn m = NaN /\ Volatility m = NaN /\
    MaxDrawdown m =v= Some 0 /\
    Daily_Return df = [NaN] /\
    Cumulative_Return df = [NaN] /\
    exists x : Q, Max_Drawdown df = [Some x] /\ x == 0.
Proof.
  apply (single_point_metrics sqrt_6dp 1%Z 100). reflexivity.
Defined.

(** ** The four summary numbers *)



Lemma series_mean_rows (rs : list Q) :
  series_mean (NaN :: List.map Some rs) = spec_mean rs.
Proof.
  unfold series_mean. cbn [dropna NaN]. now rewrite dropna_map_Some.
Qed.


Lemma fold_left_Qmin_is_min (l : list Q) (a : Q) :
  is_min_of (fold_left Qmin l a) (a :: l).
Proof.
  revert a. induction l as [|x l IH]; intros a.
  - split.
    + apply Exists_cons_hd. reflexivity.
    + apply List.Forall_cons; [apply Qle_refl | apply List.Forall_nil].
  - cbn [fold_left]. destruct (IH (Qmin a x)) as [Hex Hall].
    inversion Hall as [|? ? Hm Hl]; subst. split.
    + inversion Hex as [? ? Hhd|? ? Htl]; subst.
      * destruct (Q.min_spec a x) as [[_ E]|[_ E]].
        -- apply Exists_cons_hd.
           apply Qeq_trans with (Qmin a x); [apply Qeq_sym, E | exact Hhd].
        -- apply Exists_cons_tl, Exists_cons_hd.
           apply Qeq_trans with (Qmin a x); [apply Qeq_sym, E | exact Hhd].
      * now apply Exists_cons_tl, Exists_cons_tl.
    + apply List.Forall_cons; [|apply List.Forall_cons; [|exact Hl]].
      * eapply Qle_trans; [exact Hm | apply Q.le_min_l].
      * eapply Qle_trans; [exact Hm | apply Q.le_min_r].
Qed.

Lemma series_min_rows (d : Q) (ds : list Q) :
  exists x : Q,
    series_min (List.map Some (d :: ds)) = Some x /\ is_min_of x (d :: ds).
Proof.
  exists (fold_left Qmin ds d). split.
  - unfold series_min. rewrite dropna_map_Some. reflexivity.
  - apply fold_left_Qmin_is_min.
Qed.



(** ** Hits and misses of the cache *)

Lemma hit_of_entry (st : AppState) (key : Key) (now : Z) (en : CacheEntry) :
  cache st !! key = Some en ->
  hit st key now = (now - stored_at en <? ttl)%Z.
Proof. unfold hit. now intros ->. Qed.

Section CacheCalls.

(** The calls of [get_stock_data] for one provider and one key. *)
Variable P : Provider.
Variables (tk : str) (s e : date).

Local Abbreviation key := (tk, s, e).
Local Abbreviation call := (get_stock_data P tk s e).

Lemma get_stock_data_hit (now : Z) (st : AppState) (en : CacheEntry) :
  cache st !! key = Some en -> (now - stored_at en < ttl)%Z ->
  call now st = (value en, st).
Proof.
  intros Hk Hage. unfold get_stock_data. rewrite Hk.
  apply Z.ltb_lt in Hage. now rewrite Hage.
Qed.

Lemma get_stock_data_miss (now : Z) (st : AppState) :
  hit st key now = false ->
  call now st
  = (process_download (P tk s e now),
     {| cache := <[key := {| value := process_download (P tk s e now);
                             stored_at := now |}]> (cache st);
        downloads := downloads st ++ [(key, now)] |}).
Proof.
  unfold hit, get_stock_data. intros H.
  destruct (cache st !! key) as [en|]; [|reflexivity].
  now rewrite H.
Qed.

Lemma hit_served (now : Z) (st : AppState) :
  hit st key now = true ->
  exists en, cache st !! key = Some en /\
             (now - stored_at en < ttl)%Z /\
             call now st = (value en, st).
Proof.
  unfold hit. intros H.
  destruct (cache st !! key) as [en|] eqn:Hk; [|discriminate].
  apply Z.ltb_lt in H. exists en. split; [reflexivity|]. split; [exact H|].
  now apply get_stock_data_hit.
Qed.

(** After a call the cache holds, for the key, the value returned. *)
Lemma get_stock_data_stores (now : Z) (st : AppState) :
  exists en,
    cache (snd (call now st)) !! key = Some en /\
    value en = fst (call now st) /\
    (now - stored_at en < ttl)%Z /\
    (hit st key now = false -> stored_at en = now).
Proof.
  destruct (hit st key now) eqn:H.
  - destruct (hit_served now st H) as (en & Hk & Hage & ->).
    exists en. cbn [fst snd]. repeat split; try assumption. discriminate.
  - rewrite (get_stock_data_miss now st H). cbn [fst snd cache].
    eexists. split; [apply lookup_insert_eq|]. cbn [value stored_at].
    repeat split. unfold ttl. lia.
Qed.

(** A call asks the provider exactly when it is a miss. *)
Lemma downloads_after_call (now : Z) (st : AppState) :
  downloads (snd (call now st))
  = downloads st ++ (if hit st key now then [] else [(key, now)]).
Proof.
  destruct (hit st key now) eqn:H.
  - destruct (hit_served now st H) as (en & _ & _ & ->).
    cbn [snd]. now rewrite app_nil_r.
  - now rewrite (get_stock_data_miss now st H).
Qed.

End CacheCalls.

(** ** Empty downloads *)

(** C6.  [computeMetrics] signals [NoDataError] exactly for the empty
    series; every other series, one row included, gets a result (the
    data frame with its derived columns and the four numbers), and
    the run never raises.  In a run whose dates are valid the page
    stops with the no-data message exactly when [get_stock_data]
    returns nothing; when the download is not served from the cache
    that is exactly when the download is empty, and the page is
    rendered otherwise. *)
Theorem no_data_only_for_empty_series (sqrt : Q -> Q) (data : list Row) :
  (computeMetrics sqrt data = NoDataError <-> data = []) /\
  (data = [] \/
   exists m, computeMetrics sqrt data = Result (add_columns data) m) /\
  (forall (yf_download : Provider) (table : UpperTable) (text : str)
          (start_date end_date today : date) (now : Z) (st : AppState),
     validate start_date end_date today = Ok ->
     (fst (run sqrt table yf_download text start_date end_date today now st)
        = StopNoDataError <->
      fst (get_stock_data yf_download (ticker table text) start_date end_date now st)
        = None) /\
     (hit st (ticker table text, start_date, end_date) now = false ->
      yf_download (ticker table text) start_date end_date now = data ->
      (fst (run sqrt table yf_download text start_date end_date today now st)
         = StopNoDataError <-> data = []) /\
      (data = [] \/
       exists p, fst (run sqrt table yf_download text start_date end_date today now st)
                   = Rendered p /\ page_df p = add_columns data))).
Proof.
  assert (H1 : computeMetrics sqrt data = NoDataError <-> data = []).
  { destruct data as [|r data].
    - split; reflexivity.
    - destruct (computeMetrics_rows sqrt r data) as (tr & _ & ->).
      split; discriminate. }
  assert (H2 : data = [] \/
    exists m, computeMetrics sqrt data = Result (add_columns data) m).
  { destruct data as [|r data]; [now left|right].
    destruct (computeMetrics_rows sqrt r data) as (tr & _ & ->). eauto. }
  split; [exact H1|]. split; [exact H2|].
  intros P table text s e today now st Hv. split.
  - unfold run. rewrite Hv.
    destruct (get_stock_data P (ticker table text) s e now st) as [[df|] st'];
      cbn [fst render].
    + split; [|discriminate].
      destruct (computeScalars sqrt df); discriminate.
    + split; reflexivity.
  - intros Hmiss Hdata.
    unfold run. rewrite Hv, (get_stock_data_miss P _ s e now st Hmiss), Hdata.
    change (render sqrt (process_download data)) with (computeMetrics sqrt data).
    destruct H2 as [->|[m Hm]].
    + split; [split; reflexivity | now left].
    + rewrite Hm. cbn [fst]. split.
      * split; [discriminate|]. intros ->. discriminate Hm.
      * right. eexists. split; reflexivity.
Qed.

(** ** The date gate *)

(** C7.  [validate] fails exactly when the start is after the end, or
    the start or the end is after today; the same day three times is
    accepted; and when it fails the run stops with the range message
    in an unchanged state: nothing is downloaded and nothing is
    cached. *)
Theorem validate_gate :
  (forall start_date end_date today : date,
     validate start_date end_date today = RangeError <->
     (start_date > end_date \/ start_date > today \/ end_date > today)%Z) /\
  (forall day : date, validate day day day = Ok) /\
  (forall (sqrt : Q -> Q) (yf_download : Provider) (table : UpperTable) (text : str)
          (start_date end_date today : date) (now : Z) (st : AppState),
     validate start_date end_date today = RangeError ->
     run sqrt table yf_download text start_date end_date today now st
     = (StopRangeError, st)).
Proof.
  split; [|split].
  - intros s e t. unfold validate, invalid_range.
    destruct (e <? s)%Z eqn:E1, (t <? s)%Z eqn:E2, (t <? e)%Z eqn:E3;
      cbn [orb]; split; intros H; try reflexivity; try discriminate;
      rewrite ?Z.ltb_lt, ?Z.ltb_ge in *; lia.
  - intros t. unfold validate, invalid_range. now rewrite Z.ltb_irrefl.
  - intros sqrt P table text s e t now st H. unfold run. now rewrite H.
Qed.

(** ** Colours of the table *)

(** C9, the claim as stated fails: a daily return of 0, which is not
    negative, gets the colour of the negative ones.  For the closes
    100, 100, 90 the row 1 has the daily return 0 and the row 2 a
    negative one, and both rows are red. *)
Lemma zero_return_is_red :
  exists x y : Q,
    Daily_Return (add_columns rows_100_100_90) !! 1%nat = Some (Some x) /\
    Daily_Return (add_columns rows_100_100_90) !! 2%nat = Some (Some y) /\
    0 <= x /\ y < 0 /\
    table_styles (add_columns rows_100_100_90) !! 1%nat
    = table_styles (add_columns rows_100_100_90) !! 2%nat.
Proof.
  exists (100 / 100 - 1), (90 / 100 - 1).
  split; [reflexivity|]. split; [reflexivity|].
  split; [discriminate|]. split; reflexivity.
Qed.

Lemma highlight_positive (x : Q) : 0 < x -> highlight_returns (Some x) = "color: green"%string.
Proof.
  intros Hx. unfold highlight_returns, Qgtb.
  destruct (Qle_bool x 0) eqn:E; [|reflexivity].
  apply Qle_bool_iff in E. exfalso. apply (Qlt_not_le _ _ Hx E).
Qed.

Lemma highlight_not_positive (y : Q) : y <= 0 -> highlight_returns (Some y) = "color: red"%string.
Proof.
  intros Hy. unfold highlight_returns, Qgtb.
  apply Qle_bool_iff in Hy. now rewrite Hy.
Qed.

(** C9, amended.  In the table, every row whose daily return is
    positive is green and every row whose daily return is zero or
    negative is red, so the two are coloured differently; a row
    whose daily return is undefined has no style. *)
Theorem table_colours (df : DataFrame) (i j : nat) (x y : Q) :
  Daily_Return df !! i = Some (Some x) ->
  Daily_Return df !! j = Some (Some y) ->
  0 < x -> y <= 0 ->
  table_styles df !! i = Some "color: green"%string /\
  table_styles df !! j = Some "color: red"%string /\
  table_styles df !! i <> table_styles df !! j /\
  (forall k : nat, Daily_Return df !! k = Some NaN ->
                   table_styles df !! k = Some ""%string).
Proof.
  intros Hi Hj Hx Hy. unfold table_styles.
  rewrite !lookup_map, Hi, Hj.
  cbn [option_map]. rewrite (highlight_positive x Hx), (highlight_not_positive y Hy).
  repeat split; try discriminate.
  intros k Hk. now rewrite lookup_map, Hk.
Qed.

Lemma table_colours_witness :
  table_styles (add_columns rows_100_110_99) !! 1%nat = Some "color: green"%string /\
  table_styles (add_columns rows_100_110_99) !! 2%nat = Some "color: red"%string /\
  table_styles (add_columns rows_100_110_99) !! 1%nat
    <> table_styles (add_columns rows_100_110_99) !! 2%nat /\
  (forall k : nat, Daily_Return (add_columns rows_100_110_99) !! k = Some NaN ->
                   table_styles (add_columns rows_100_110_99) !! k = Some ""%string).
Proof.
  apply (table_colours (add_columns rows_100_110_99) 1 2
           (110 / 100 - 1) (99 / 110 - 1));
    reflexivity || discriminate.
Defined.

(** ** The cache of the download *)

(** C8, the claim as stated fails: two calls less than 3600 seconds
    apart can return different values.  The entry for the key is
    stored at the time 0; the call at 3000 is served from it (the
    three rows); the call at 4000, 1000 seconds later, finds the entry
    3600 seconds old or more, asks the provider again and returns
    what it has then (nothing). *)
Lemma calls_within_ttl_of_each_other_differ :
  (3000 <= 4000)%Z /\ (4000 - 3000 < ttl)%Z /\
  fst (get_stock_data provider_until_3600 AAPL 0 1 3000 state_after_call_at_0)
  <> fst (get_stock_data provider_until_3600 AAPL 0 1 4000
            (snd (get_stock_data provider_until_3600 AAPL 0 1 3000
                    state_after_call_at_0))).
Proof.
  split; [lia|]. split; [reflexivity|].
  vm_compute. discriminate.
Qed.

(** C8, amended.  Two calls for the same key at times [t1 <= t2] less
    than [ttl = 3600] apart ask the provider at most once between
    them.  After the first call the cache holds for the key the value
    it returned, empty or not; when the second call comes while that
    entry is younger than [ttl], which is always so when the first
    call was a miss, it returns the same value and leaves the state
    as it is, without asking the provider; a call that comes when the
    entry is [ttl] old or more asks the provider again. *)
Theorem cached_within_ttl (P : Provider) (tk : str) (s e : date)
    (t1 t2 : Z) (st : AppState) :
  (t1 <= t2)%Z -> (t2 - t1 < ttl)%Z ->
  let c1 := get_stock_data P tk s e t1 st in
  let c2 := get_stock_data P tk s e t2 (snd c1) in
  ttl = 3600%Z /\
  (exists calls : list (Key * Z),
     downloads (snd c2) = downloads st ++ calls /\ (length calls <= 1)%nat) /\
  exists en : CacheEntry,
    cache (snd c1) !! (tk, s, e) = Some en /\
    value en = fst c1 /\
    (hit st (tk, s, e) t1 = false -> stored_at en = t1) /\
    ((t2 - stored_at en < ttl)%Z -> fst c2 = fst c1 /\ snd c2 = snd c1) /\
    (forall t3 : Z,
       (ttl <= t3 - stored_at en)%Z ->
       fst (get_stock_data P tk s e t3 (snd c1)) = process_download (P tk s e t3) /\
       downloads (snd (get_stock_data P tk s e t3 (snd c1)))
       = downloads (snd c1) ++ [((tk, s, e), t3)]).
Proof.
  intros Ht Hd c1 c2.
  destruct (get_stock_data_stores P tk s e t1 st) as (en & Hk & Hv & Hage & Hfresh).
  fold c1 in Hk, Hv.
  split; [reflexivity|]. split.
  - subst c2. rewrite downloads_after_call. subst c1.
    rewrite downloads_after_call, <- app_assoc. eexists. split; [reflexivity|].
    rewrite (hit_of_entry _ _ t2 en Hk).
    destruct (hit st (tk, s, e) t1) eqn:H1.
    + destruct (t2 - stored_at en <? ttl)%Z; simpl; lia.
    + rewrite (Hfresh eq_refl).
      apply Z.ltb_lt in Hd. rewrite Hd. simpl. lia.
  - exists en. split; [exact Hk|]. split; [exact Hv|]. split; [exact Hfresh|].
    split.
    + intros Hyoung. subst c2.
      rewrite (get_stock_data_hit P tk s e t2 (snd c1) en Hk Hyoung).
      cbn [fst snd]. split; [exact Hv | reflexivity].
    + intros t3 Hold.
      assert (Hmiss : hit (snd c1) (tk, s, e) t3 = false).
      { rewrite (hit_of_entry _ _ t3 en Hk). apply Z.ltb_ge. exact Hold. }
      rewrite (get_stock_data_miss P tk s e t3 (snd c1) Hmiss).
      split; reflexivity.
Qed.

Lemma cached_within_ttl_witness :
  let c1 := get_stock_data provider_until_3600 AAPL 0 1 3000 empty_state in
  let c2 := get_stock_data provider_until_3600 AAPL 0 1 4000 (snd c1) in
  ttl = 3600%Z /\
  (exists calls : list (Key * Z),
     downloads (snd c2) = downloads empty_state ++ calls /\ (length calls <= 1)%nat) /\
  exists en : CacheEntry,
    cache (snd c1) !! (AAPL, 0%Z, 1%Z) = Some en /\
    value en = fst c1 /\
    (hit empty_state (AAPL, 0%Z, 1%Z) 3000 = false -> stored_at en = 3000%Z) /\
    ((4000 - stored_at en < ttl)%Z -> fst c2 = fst c1 /\ snd c2 = snd c1) /\
    (forall t3 : Z,
       (ttl <= t3 - stored_at en)%Z ->
       fst (get_stock_data provider_until_3600 AAPL 0 1 t3 (snd c1))
       = process_download (provider_until_3600 AAPL 0%Z 1%Z t3) /\
       downloads (snd (get_stock_data provider_until_3600 AAPL 0 1 t3 (snd c1)))
       = downloads (snd c1) ++ [((AAPL, 0%Z, 1%Z), t3)]).
Proof.
  apply (cached_within_ttl provider_until_3600 AAPL 0 1 3000 4000 empty_state).
  - lia.
  - reflexivity.
Defined.

(** ** The ticker text *)

Lemma isspace_spec (c : N) :
  isspace c = true <->
  ((9 <= c <= 13) \/ (28 <= c <= 32) \/ c = 133 \/ c = 160 \/ c = 5760 \/
   (8192 <= c <= 8202) \/ c = 8232 \/ c = 8233 \/ c = 8239 \/ c = 8287 \/
   c = 12288)%N.
Proof.
  unfold isspace.
  rewrite !orb_true_iff, !andb_true_iff, !N.leb_le, !N.eqb_eq. tauto.
Qed.

Lemma upper_ascii_spec (c : N) :
  ((97 <= c <= 122)%N /\ upper_ascii c = (c - 32)%N) \/
  (~ (97 <= c <= 122)%N /\ upper_ascii c = c).
Proof.
  unfold upper_ascii.
  destruct ((97 <=? c) && (c <=? 122))%N eqn:E.
  - apply andb_true_iff in E as [E1 E2].
    apply N.leb_le in E1, E2. left. split; [lia | reflexivity].
  - right. split; [|reflexivity]. intros [H1 H2].
    apply N.leb_le in H1, H2. rewrite H1, H2 in E. discriminate.
Qed.

Lemma isspace_upper_ascii (c : N) : isspace (upper_ascii c) = isspace c.
Proof.
  destruct (upper_ascii_spec c) as [[Hc ->]|[_ ->]]; [|reflexivity].
  assert (H1 : isspace (c - 32) <> true) by (rewrite isspace_spec; lia).
  assert (H2 : isspace c <> true) by (rewrite isspace_spec; lia).
  apply not_true_is_false in H1, H2. congruence.
Qed.
















Lemma run_state (sqrt : Q -> Q) (table : UpperTable) (P : Provider) (text : str)
    (s e today : date) (now : Z) (st : AppState) :
  validate s e today = Ok ->
  snd (run sqrt table P text s e today now st)
  = snd (get_stock_data P (ticker table text) s e now st).
Proof.
  intros Hv. unfold run. rewrite Hv.
  destruct (get_stock_data P (ticker table text) s e now st) as [df st'].
  destruct (render sqrt df); reflexivity.
Qed.



(** * Further properties *)

Lemma positive_nonzero (x : Q) : 0 < x -> ~ x == 0.
Proof. intros H E. rewrite E in H. discriminate. Qed.

(** ** No row depends on a later row *)

Lemma returns_from_app (p : Q) (a b : list Q) :
  exists t, returns_from p (a ++ b) = returns_from p a ++ t.
Proof.
  revert p. induction a as [|c a IH]; intros p.
  - eexists. reflexivity.
  - destruct (IH c) as [t Ht]. exists t. cbn [app returns_from]. now rewrite Ht.
Qed.

Lemma accumulate_from_app (f : Q -> Q -> Q) (acc : Q) (l l' : list Q) :
  exists t, accumulate_from f acc (l ++ l') = accumulate_from f acc l ++ t.
Proof.
  revert acc. induction l as [|x l IH]; intros acc.
  - eexists. reflexivity.
  - destruct (IH (f acc x)) as [t Ht]. exists t.
    cbn [app accumulate_from]. now rewrite Ht.
Qed.

Lemma drawdowns_from_app (m : Q) (a b : list Q) :
  exists t, drawdowns_from m (a ++ b) = drawdowns_from m a ++ t.
Proof.
  revert m. induction a as [|c a IH]; intros m.
  - eexists. reflexivity.
  - destruct (IH (Qmax m c)) as [t Ht]. exists t.
    cbn [app drawdowns_from]. now rewrite Ht.
Qed.

Lemma take_app_of_length {A : Type} (l k : list A) (n : nat) :
  length l = n -> take n (l ++ k) = l.
Proof. intros <-. apply take_app_length. Qed.

Lemma closes_app (a b : list Row) : closes (a ++ b) = closes a ++ closes b.
Proof. apply List.map_app. Qed.

(** X2.  The derived columns have no lookahead: the rows that a
    longer download adds after the rows of [data] change nothing in
    the daily return, the cumulative return and the drawdown of the
    rows of [data]. *)
Theorem derived_columns_have_no_lookahead (data more : list Row) :
  take (length data) (Daily_Return (add_columns (data ++ more)))
  = Daily_Return (add_columns data) /\
  take (length data) (Cumulative_Return (add_columns (data ++ more)))
  = Cumulative_Return (add_columns data) /\
  take (length data) (Max_Drawdown (add_columns (data ++ more)))
  = Max_Drawdown (add_columns data).
Proof.
  destruct data as [|[d c] data]; [repeat split|].
  change (((d, c) :: data) ++ more) with ((d, c) :: (data ++ more)).
  rewrite !Daily_Return_closes, !Cumulative_Return_closes, !Max_Drawdown_closes.
  rewrite closes_app. cbn [length take].
  destruct (returns_from_app c (closes data) (closes more)) as [t ->].
  destruct (drawdowns_from_app c (closes data) (closes more)) as [t' ->].
  rewrite !List.map_app.
  destruct (accumulate_from_app Qmult 1
              (List.map (Qplus 1) (returns_from c (closes data)))
              (List.map (Qplus 1) t)) as [t'' ->].
  rewrite !List.map_app.
  repeat split; f_equal; apply take_app_of_length;
    now autorewrite with series_length.
Qed.

(** ** Bounds of the returns and of the drawdowns *)

Lemma ratio_positive (c p : Q) : 0 < c -> 0 < p -> 0 < c / p.
Proof.
  intros Hc Hp. apply Qlt_shift_div_l; [exact Hp|]. now rewrite Qmult_0_l.
Qed.

Lemma returns_from_minus_one (p : Q) (cs : list Q) :
  0 < p -> Forall (fun y => 0 < y) cs ->
  Forall (fun x => - (1) <= x) (returns_from p cs).
Proof.
  intros Hp Hcs. revert p Hp.
  induction Hcs as [|c cs Hc _ IH]; intros p Hp; cbn [returns_from];
    constructor; [|now apply IH].
  pose proof (ratio_positive c p Hc Hp) as H. revert H.
  generalize (c / p). intros q Hq. lra.
Qed.

Lemma drawdowns_between (m : Q) (cs : list Q) :
  0 < m -> Forall (fun y => 0 < y) cs ->
  Forall (fun x => - (1) < x /\ x <= 0) (drawdowns_from m cs).
Proof.
  intros Hm Hcs. revert m Hm.
  induction Hcs as [|c cs Hc _ IH]; intros m Hm; cbn [drawdowns_from];
    constructor.
  - assert (HM : 0 < Qmax m c).
    { eapply Qlt_le_trans; [exact Hm | apply Q.le_max_l]. }
    split.
    + pose proof (ratio_positive c (Qmax m c) Hc HM) as H. revert H.
      generalize (c / Qmax m c). intros q Hq. lra.
    + apply ratio_to_max; [exact HM | apply Q.le_max_r].
  - apply IH. eapply Qlt_le_trans; [exact Hm | apply Q.le_max_l].
Qed.

Lemma numbers_satisfy_Some (P : Q -> Prop) (l : list Q) :
  Forall P l -> numbers_satisfy P (List.map Some l).
Proof.
  unfold numbers_satisfy. intros H. induction H; simpl; constructor; auto.
Qed.

Lemma numbers_satisfy_NaN (P : Q -> Prop) (s : list (option Q)) :
  numbers_satisfy P s -> numbers_satisfy P (NaN :: s).
Proof. unfold numbers_satisfy. intros H. constructor; [exact I | exact H]. Qed.

Lemma is_min_of_satisfies (P : Q -> Prop) (x : Q) (l : list Q) :
  (forall a b, a == b -> P a -> P b) ->
  is_min_of x l -> Forall P l -> P x.
Proof.
  intros HP [Hex _] Hall.
  apply List.Exists_exists in Hex as (y & Hin & Hy).
  rewrite List.Forall_forall in Hall. exact (HP y x Hy (Hall y Hin)).
Qed.

(** X4.  For a series of positive closes every daily return is at
    least -1 (-100%), every drawdown is at least -1 and at most 0,
    and so is the maximum drawdown, which is always a number. *)
Theorem returns_and_drawdowns_bounded (sqrt : Q -> Q) (data : list Row) :
  data <> [] -> positive_closes data ->
  exists df m,
    computeMetrics sqrt data = Result df m /\
    numbers_satisfy (fun x => - (1) <= x) (Daily_Return df) /\
    numbers_satisfy (fun x => - (1) <= x /\ x <= 0) (Max_Drawdown df) /\
    exists x : Q, MaxDrawdown m = Some x /\ - (1) <= x /\ x <= 0.
Proof.
  intros Hne Hpos. destruct data as [|[d0 c0] data]; [contradiction|].
  destruct (computeMetrics_rows sqrt (d0, c0) data) as (tr & _ & ->).
  eexists _, _. split; [reflexivity|].
  apply positive_closes_Forall in Hpos.
  change (closes ((d0, c0) :: data)) with (c0 :: closes data) in Hpos.
  inversion Hpos as [|? ? Hc0 Hcs]; subst.
  assert (Hdd : Forall (fun x => - (1) <= x /\ x <= 0)
                  ((c0 / c0 - 1) :: drawdowns_from c0 (closes data))).
  { constructor.
    - assert (E : c0 / c0 - 1 == 0) by (field; now apply positive_nonzero).
      rewrite E. split; [discriminate | apply Qle_refl].
    - eapply List.Forall_impl; [|apply (drawdowns_between c0 _ Hc0 Hcs)].
      intros a [H1 H2]. split; [now apply Qlt_le_weak | exact H2]. }
  cbn [MaxDrawdown]. unfold max_drawdown.
  rewrite Daily_Return_closes, Max_Drawdown_closes.
  split; [|split].
  - apply numbers_satisfy_NaN, numbers_satisfy_Some.
    now apply returns_from_minus_one.
  - apply (numbers_satisfy_Some _ ((c0 / c0 - 1) :: drawdowns_from c0 (closes data))).
    exact Hdd.
  - destruct (series_min_rows (c0 / c0 - 1) (drawdowns_from c0 (closes data)))
      as (x & Hx & Hmin).
    exists x. split; [exact Hx|].
    apply (is_min_of_satisfies (fun x => - (1) <= x /\ x <= 0) x _) in Hmin;
      [exact Hmin | | exact Hdd].
    intros a b E [H1 H2]. rewrite <- E. now split.
Qed.

Lemma returns_and_drawdowns_bounded_witness :
  exists df m,
    computeMetrics sqrt_6dp rows_100_120_90 = Result df m /\
    numbers_satisfy (fun x => - (1) <= x) (Daily_Return df) /\
    numbers_satisfy (fun x => - (1) <= x /\ x <= 0) (Max_Drawdown df) /\
    exists x : Q, MaxDrawdown m = Some x /\ - (1) <= x /\ x <= 0.
Proof.
  apply (returns_and_drawdowns_bounded sqrt_6dp rows_100_120_90).
  - discriminate.
  - unfold rows_100_120_90. positive_rows.
Defined.

(** ** A maximum drawdown of zero *)

Lemma rises_from_eq (a b : Q) (l : list Q) :
  a == b -> rises_from a l <-> rises_from b l.
Proof.
  intros E. destruct l as [|c l]; [reflexivity|].
  cbn [rises_from]. now rewrite E.
Qed.

Lemma drawdowns_zero_iff (m : Q) (cs : list Q) :
  0 < m -> Forall (fun y => 0 < y) cs ->
  Forall (fun x => x == 0) (drawdowns_from m cs) <-> rises_from m cs.
Proof.
  intros Hm Hcs. revert m Hm.
  induction Hcs as [|c cs Hc _ IH]; intros m Hm; cbn [drawdowns_from rises_from].
  - split; [intros _; exact I | intros _; constructor].
  - assert (HM : 0 < Qmax m c).
    { eapply Qlt_le_trans; [exact Hm | apply Q.le_max_l]. }
    destruct (ratio_to_max c (Qmax m c) HM (Q.le_max_r m c)) as [_ Hz].
    split.
    + intros H. inversion H as [|? ? Hhd Htl]; subst.
      apply Hz in Hhd. split.
      * rewrite Hhd. apply Q.le_max_l.
      * apply (rises_from_eq c (Qmax m c) cs Hhd). now apply IH.
    + intros [Hle Hrise].
      assert (E : c == Qmax m c) by (symmetry; now apply Q.max_r).
      constructor; [now apply Hz|].
      apply IH; [exact HM|]. now apply (rises_from_eq c (Qmax m c) cs E).
Qed.

Lemma min_zero_iff (x : Q) (ds : list Q) :
  is_min_of x ds -> Forall (fun d => d <= 0) ds ->
  x == 0 <-> Forall (fun d => d == 0) ds.
Proof.
  intros [Hex Hall] Hle. split.
  - intros E. rewrite List.Forall_forall in *. intros d Hd.
    apply Qle_antisym; [now apply Hle|]. rewrite <- E. now apply Hall.
  - intros Hz. apply List.Exists_exists in Hex as (y & Hin & Hy).
    rewrite List.Forall_forall in Hz. rewrite <- Hy. now apply Hz.
Qed.

(** X5.  For a series of positive closes the maximum drawdown is 0
    exactly when no close is below the close of the row before. *)
Theorem max_drawdown_zero_iff_never_falls (sqrt : Q -> Q) (data : list Row) :
  data <> [] -> positive_closes data ->
  exists df m (x : Q),
    computeMetrics sqrt data = Result df m /\
    MaxDrawdown m = Some x /\
    (x == 0 <-> never_falls (closes data)).
Proof.
  intros Hne Hpos. destruct data as [|[d0 c0] data]; [contradiction|].
  destruct (computeMetrics_rows sqrt (d0, c0) data) as (tr & _ & ->).
  apply positive_closes_Forall in Hpos.
  change (closes ((d0, c0) :: data)) with (c0 :: closes data) in *.
  inversion Hpos as [|? ? Hc0 Hcs]; subst.
  destruct (series_min_rows (c0 / c0 - 1) (drawdowns_from c0 (closes data)))
    as (x & Hx & Hmin).
  eexists _, _, x. split; [reflexivity|].
  cbn [MaxDrawdown never_falls]. unfold max_drawdown.
  rewrite Max_Drawdown_closes. split; [exact Hx|].
  assert (E0 : c0 / c0 - 1 == 0) by (field; now apply positive_nonzero).
  assert (Hle : Forall (fun d => d <= 0)
                  ((c0 / c0 - 1) :: drawdowns_from c0 (closes data))).
  { constructor; [rewrite E0; apply Qle_refl|].
    eapply List.Forall_impl; [|apply (drawdowns_between c0 _ Hc0 Hcs)].
    intros a [_ Ha]. exact Ha. }
  rewrite (min_zero_iff x _ Hmin Hle).
  rewrite <- (drawdowns_zero_iff c0 (closes data) Hc0 Hcs).
  split.
  - intros H. now inversion H.
  - intros H. constructor; [exact E0 | exact H].
Qed.

Lemma max_drawdown_zero_iff_never_falls_witness :
  exists df m (x : Q),
    computeMetrics sqrt_6dp rows_100_120_90 = Result df m /\
    MaxDrawdown m = Some x /\
    (x == 0 <-> never_falls (closes rows_100_120_90)).
Proof.
  apply (max_drawdown_zero_iff_never_falls sqrt_6dp rows_100_120_90).
  - discriminate.
  - unfold rows_100_120_90. positive_rows.
Defined.

(** ** The colour of a row from the closes *)

Lemma return_sign (c p : Q) :
  0 < p -> (p < c -> 0 < c / p - 1) /\ (c <= p -> c / p - 1 <= 0).
Proof.
  intros Hp. split; intros H.
  - assert (Hq : 1 < c / p).
    { apply Qlt_shift_div_l; [exact Hp|]. now rewrite Qmult_1_l. }
    revert Hq. generalize (c / p). intros q Hq. lra.
  - assert (Hq : c / p <= 1).
    { apply Qle_shift_div_r; [exact Hp|]. now rewrite Qmult_1_l. }
    revert Hq. generalize (c / p). intros q Hq. lra.
Qed.

(** X6.  In the table of a series of positive closes there is one
    style per row; the first row has no style; a later row is green
    when its close is above the close of the row before, and red when
    it is equal or below. *)
Theorem row_colour_from_closes (sqrt : Q -> Q) (data : list Row) :
  data <> [] -> positive_closes data ->
  exists df m,
    computeMetrics sqrt data = Result df m /\
    length (table_styles df) = length data /\
    table_styles df !! 0%nat = Some ""%string /\
    forall (i : nat) (p c : Q),
      closes data !! i = Some p -> closes data !! S i = Some c ->
      (p < c -> table_styles df !! S i = Some "color: green"%string) /\
      (c <= p -> table_styles df !! S i = Some "color: red"%string).
Proof.
  intros Hne Hpos. destruct data as [|[d0 c0] data]; [contradiction|].
  destruct (computeMetrics_rows sqrt (d0, c0) data) as (tr & _ & ->).
  eexists _, _. split; [reflexivity|].
  unfold table_styles. rewrite Daily_Return_closes.
  apply positive_closes_Forall in Hpos.
  change (closes ((d0, c0) :: data)) with (c0 :: closes data) in *.
  split; [|split].
  - cbn [List.map length]. now autorewrite with series_length.
  - reflexivity.
  - intros i p c Hp Hc. change (closes data !! i = Some c) in Hc.
    assert (Hp0 : 0 < p)
      by exact (lookup_Forall (fun x => 0 < x) _ i p Hpos Hp).
    assert (Hs : List.map highlight_returns
                   (NaN :: List.map Some (returns_from c0 (closes data))) !! S i
                 = Some (highlight_returns (Some (c / p - 1)))).
    { cbn [List.map].
      change ((highlight_returns NaN
               :: List.map highlight_returns
                    (List.map Some (returns_from c0 (closes data)))) !! S i)
        with (List.map highlight_returns
                (List.map Some (returns_from c0 (closes data))) !! i).
      rewrite !lookup_map.
      now rewrite (lookup_returns_from c0 (closes data) i c p Hp Hc). }
    rewrite Hs. destruct (return_sign c p Hp0) as [Hup Hdown].
    split; intros H.
    + now rewrite (highlight_positive _ (Hup H)).
    + now rewrite (highlight_not_positive _ (Hdown H)).
Qed.

Lemma row_colour_from_closes_witness :
  exists df m,
    computeMetrics sqrt_6dp rows_100_110_99 = Result df m /\
    length (table_styles df) = length rows_100_110_99 /\
    table_styles df !! 0%nat = Some ""%string /\
    forall (i : nat) (p c : Q),
      closes rows_100_110_99 !! i = Some p ->
      closes rows_100_110_99 !! S i = Some c ->
      (p < c -> table_styles df !! S i = Some "color: green"%string) /\
      (c <= p -> table_styles df !! S i = Some "color: red"%string).
Proof.
  apply (row_colour_from_closes sqrt_6dp rows_100_110_99).
  - discriminate.
  - unfold rows_100_110_99. positive_rows.
Defined.

(** ** The unit of the prices *)

Lemma Qmax_scale (k a b : Q) : 0 < k -> Qmax (k * a) (k * b) == k * Qmax a b.
Proof.
  intros Hk. destruct (Qlt_le_dec b a) as [H|H].
  - rewrite (Q.max_l a b) by now apply Qlt_le_weak.
    apply Q.max_l. apply Qmult_le_l; [exact Hk | now apply Qlt_le_weak].
  - rewrite (Q.max_r a b) by exact H.
    apply Q.max_r. now apply Qmult_le_l.
Qed.

Lemma returns_from_scale (k p p' : Q) (cs : list Q) :
  0 < k -> 0 < p -> p' == k * p -> Forall (fun y => 0 < y) cs ->
  Forall2 Qeq (returns_from p' (List.map (Qmult k) cs)) (returns_from p cs).
Proof.
  intros Hk Hp Hp' Hcs. revert p p' Hp Hp'.
  induction Hcs as [|c cs Hc _ IH]; intros p p' Hp Hp';
    cbn [List.map returns_from]; constructor.
  - rewrite Hp'. field. split; now apply positive_nonzero.
  - apply IH; [exact Hc | reflexivity].
Qed.

Lemma drawdowns_from_scale (k m m' : Q) (cs : list Q) :
  0 < k -> 0 < m -> m' == k * m -> Forall (fun y => 0 < y) cs ->
  Forall2 Qeq (drawdowns_from m' (List.map (Qmult k) cs)) (drawdowns_from m cs).
Proof.
  intros Hk Hm Hm' Hcs. revert m m' Hm Hm'.
  induction Hcs as [|c cs Hc _ IH]; intros m m' Hm Hm';
    cbn [List.map drawdowns_from]; constructor.
  - assert (HM : 0 < Qmax m c).
    { eapply Qlt_le_trans; [exact Hm | apply Q.le_max_l]. }
    rewrite Hm', (Qmax_scale k m c Hk). field.
    split; now apply positive_nonzero.
  - apply IH.
    + eapply Qlt_le_trans; [exact Hm | apply Q.le_max_l].
    + rewrite Hm'. now apply Qmax_scale.
Qed.

Lemma accumulate_from_Qmult_eq (acc acc' : Q) (l l' : list Q) :
  acc == acc' -> Forall2 Qeq l l' ->
  Forall2 Qeq (accumulate_from Qmult acc l) (accumulate_from Qmult acc' l').
Proof.
  intros Hacc H. revert acc acc' Hacc.
  induction H as [|x y l l' Hxy _ IH]; intros acc acc' Hacc;
    cbn [accumulate_from]; constructor.
  - now rewrite Hacc, Hxy.
  - apply IH. now rewrite Hacc, Hxy.
Qed.

Lemma Forall2_Qeq_map (f : Q -> Q) (l l' : list Q) :
  (forall x y, x == y -> f x == f y) ->
  Forall2 Qeq l l' -> Forall2 Qeq (List.map f l) (List.map f l').
Proof.
  intros Hf H. induction H; simpl; constructor; auto.
Qed.

Lemma Forall2_veq_Some (l l' : list Q) :
  Forall2 Qeq l l' -> Forall2 veq (List.map Some l) (List.map Some l').
Proof. intros H. induction H; simpl; constructor; auto. Qed.

Lemma highlight_returns_veq (a b : option Q) :
  a =v= b -> highlight_returns a = highlight_returns b.
Proof.
  destruct a as [x|], b as [y|]; simpl; try contradiction; [|reflexivity].
  intros E. unfold Qgtb.
  assert (Hb : Qle_bool x 0 = Qle_bool y 0).
  { destruct (Qle_bool x 0) eqn:Hx, (Qle_bool y 0) eqn:Hy; try reflexivity.
    - apply Qle_bool_iff in Hx. rewrite E in Hx. apply Qle_bool_iff in Hx.
      congruence.
    - apply Qle_bool_iff in Hy. rewrite <- E in Hy. apply Qle_bool_iff in Hy.
      congruence. }
  now rewrite Hb.
Qed.

Lemma map_highlight_veq (s s' : list (option Q)) :
  Forall2 veq s s' ->
  List.map highlight_returns s = List.map highlight_returns s'.
Proof.
  intros H. induction H as [|a b s s' Hab _ IH]; simpl; [reflexivity|].
  now rewrite (highlight_returns_veq a b Hab), IH.
Qed.

Lemma closes_scale (k : Q) (data : list Row) :
  closes (scale_closes k data) = List.map (Qmult k) (closes data).
Proof. unfold closes, scale_closes. now rewrite !List.map_map. Qed.

(** X3.  The derived columns do not depend on the unit of the prices:
    when every close of a series of positive closes is multiplied by
    the same [k > 0], the daily returns, the cumulative returns and
    the drawdowns keep their values, row by row, and the rows of the
    table keep their colours. *)
Theorem derived_columns_scale_invariant (k : Q) (data : list Row) :
  0 < k -> positive_closes data ->
  Forall2 veq (Daily_Return (add_columns (scale_closes k data)))
              (Daily_Return (add_columns data)) /\
  Forall2 veq (Cumulative_Return (add_columns (scale_closes k data)))
              (Cumulative_Return (add_columns data)) /\
  Forall2 veq (Max_Drawdown (add_columns (scale_closes k data)))
              (Max_Drawdown (add_columns data)) /\
  table_styles (add_columns (scale_closes k data))
  = table_styles (add_columns data).
Proof.
  intros Hk Hpos.
  assert (H3 : Forall2 veq (Daily_Return (add_columns (scale_closes k data)))
                 (Daily_Return (add_columns data)) /\
               Forall2 veq (Cumulative_Return (add_columns (scale_closes k data)))
                 (Cumulative_Return (add_columns data)) /\
               Forall2 veq (Max_Drawdown (add_columns (scale_closes k data)))
                 (Max_Drawdown (add_columns data))).
  { destruct data as [|[d0 c0] data]; [repeat split; constructor|].
    apply positive_closes_Forall in Hpos.
    change (closes ((d0, c0) :: data)) with (c0 :: closes data) in Hpos.
    inversion Hpos as [|? ? Hc0 Hcs]; subst.
    change (scale_closes k ((d0, c0) :: data))
      with ((d0, k * c0) :: scale_closes k data).
    rewrite !Daily_Return_closes, !Cumulative_Return_closes, !Max_Drawdown_closes.
    rewrite closes_scale.
    pose proof (returns_from_scale k c0 (k * c0) (closes data) Hk Hc0
                  (Qeq_refl _) Hcs) as Hr.
    split; [|split].
    - constructor; [exact I|]. now apply Forall2_veq_Some.
    - constructor; [exact I|]. apply Forall2_veq_Some.
      apply Forall2_Qeq_map; [intros x y E; now rewrite E|].
      apply accumulate_from_Qmult_eq; [reflexivity|].
      apply Forall2_Qeq_map; [intros x y E; now rewrite E | exact Hr].
    - constructor.
      + cbn [veq]. field. split; now apply positive_nonzero.
      + apply Forall2_veq_Some.
        now apply (drawdowns_from_scale k c0 (k * c0) (closes data)). }
  destruct H3 as (Hd & Hc & Hm). repeat split; try assumption.
  unfold table_styles. now apply map_highlight_veq.
Qed.

Lemma derived_columns_scale_invariant_witness :
  Forall2 veq (Daily_Return (add_columns (scale_closes 2 rows_100_110_99)))
              (Daily_Return (add_columns rows_100_110_99)) /\
  Forall2 veq (Cumulative_Return (add_columns (scale_closes 2 rows_100_110_99)))
              (Cumulative_Return (add_columns rows_100_110_99)) /\
  Forall2 veq (Max_Drawdown (add_columns (scale_closes 2 rows_100_110_99)))
              (Max_Drawdown (add_columns rows_100_110_99)) /\
  table_styles (add_columns (scale_closes 2 rows_100_110_99))
  = table_styles (add_columns rows_100_110_99).
Proof.
  apply (derived_columns_scale_invariant 2 rows_100_110_99).
  - reflexivity.
  - unfold rows_100_110_99. positive_rows.
Defined.

(** ** Which summary numbers are defined *)

Lemma last_after_numbers (a : option Q) (l : list Q) :
  l <> [] -> exists x : Q, last (a :: List.map Some l) = Some (Some x).
Proof.
  intros Hl. rewrite last_lookup. cbn [length Nat.pred].
  destruct l as [|y l]; [contradiction|].
  rewrite length_map. cbn [length].
  change ((a :: List.map Some (y :: l)) !! S (length l))
    with (List.map Some (y :: l) !! length l).
  rewrite lookup_map.
  destruct (lookup_lt_is_Some_2 (y :: l) (length l)) as [x Hx];
    [cbn [length]; lia|].
  exists x. now rewrite Hx.
Qed.

Lemma series_std_defined (sqrt : Q -> Q) (rs : list Q) :
  series_std sqrt (NaN :: List.map Some rs) <> NaN <-> (2 <= length rs)%nat.
Proof.
  unfold series_std, series_var. cbn [dropna NaN]. rewrite dropna_map_Some.
  destruct (length rs <=? 1)%nat eqn:E.
  - apply Nat.leb_le in E. split; [intros H; now contradiction H | lia].
  - apply Nat.leb_gt in E. split; [lia | discriminate].
Qed.

(** X7.  For a series of positive closes the maximum drawdown is
    always a number; the average daily return is a number exactly
    when the series has at least two rows; the total return is
    undefined for a single row and a number for two rows; the
    volatility is undefined for fewer than three rows. *)
Theorem summary_numbers_defined (sqrt : Q -> Q) (data : list Row) :
  data <> [] -> positive_closes data ->
  exists df m,
    computeMetrics sqrt data = Result df m /\
    MaxDrawdown m <> NaN /\
    (AvgDailyReturn m <> NaN <-> (2 <= length data)%nat) /\
    (TotalReturn m <> NaN -> (2 <= length data)%nat) /\
    (length data = 2%nat -> TotalReturn m <> NaN) /\
    (Volatility m <> NaN -> (3 <= length data)%nat).
Proof.
  intros Hne _. destruct data as [|[d0 c0] data]; [contradiction|].
  destruct (computeMetrics_rows sqrt (d0, c0) data) as (tr & Htr & ->).
  eexists _, _. split; [reflexivity|].
  cbn [TotalReturn AvgDailyReturn Volatility MaxDrawdown length].
  unfold max_drawdown, avg_daily_return, volatility.
  rewrite Cumulative_Return_closes in Htr.
  rewrite Daily_Return_closes, Max_Drawdown_closes.
  pose proof (length_returns_from c0 (closes data)) as Hlen.
  rewrite length_closes in Hlen.
  assert (Htotal : tr <> NaN <-> (2 <= S (length data))%nat).
  { set (prods := List.map (fun x => x - 1)
                    (accumulate_from Qmult 1
                       (List.map (Qplus 1) (returns_from c0 (closes data))))) in *.
    assert (Hp : length prods = length data).
    { subst prods. now autorewrite with series_length. }
    destruct prods as [|y prods].
    + injection Htr as <-. split; [intros H; now contradiction H|].
      simpl in Hp. lia.
    + destruct (last_after_numbers NaN (y :: prods)) as [x Hx]; [discriminate|].
      rewrite Hx in Htr. injection Htr as <-.
      split; [simpl in Hp; lia | discriminate]. }
  split; [|split; [|split; [|split]]].
  - destruct (series_min_rows (c0 / c0 - 1) (drawdowns_from c0 (closes data)))
      as (x & Hx & _).
    cbn [List.map] in Hx. rewrite Hx. discriminate.
  - rewrite series_mean_rows.
    destruct (returns_from c0 (closes data)) as [|r rs]; cbn [spec_mean length] in *.
    + split; [intros H; now contradiction H | lia].
    + split; [lia | discriminate].
  - apply Htotal.
  - intros H2. apply Htotal. lia.
  - rewrite (series_std_defined sqrt (returns_from c0 (closes data))). lia.
Qed.

Lemma summary_numbers_defined_witness :
  exists df m,
    computeMetrics sqrt_6dp rows_100_110_99 = Result df m /\
    MaxDrawdown m <> NaN /\
    (AvgDailyReturn m <> NaN <-> (2 <= length rows_100_110_99)%nat) /\
    (TotalReturn m <> NaN -> (2 <= length rows_100_110_99)%nat) /\
    (length rows_100_110_99 = 2%nat -> TotalReturn m <> NaN) /\
    (Volatility m <> NaN -> (3 <= length rows_100_110_99)%nat).
Proof.
  apply (summary_numbers_defined sqrt_6dp rows_100_110_99).
  - discriminate.
  - unfold rows_100_110_99. positive_rows.
Defined.

(** ** The chart and the table show the download *)

Lemma zip_rows_map {A B C : Type} (f : A -> B) (g : A -> C) (l : list A) :
  zip_rows (List.map f l) (List.map g l) = List.map (fun x => (f x, g x)) l.
Proof. induction l as [|x l IH]; simpl; [reflexivity | now rewrite IH]. Qed.

Lemma zip_rows_three {A B C : Type} (a : list A) (c : list B) (d : list C) :
  length c = length a -> length d = length a ->
  List.map (fun r => (fst r, fst (snd r))) (zip_rows a (zip_rows c d))
  = zip_rows a c /\
  List.map (fun r => snd (snd r)) (zip_rows a (zip_rows c d)) = d /\
  length (zip_rows a (zip_rows c d)) = length a.
Proof.
  revert c d. induction a as [|x a IH]; intros [|y c] [|z d] Hc Hd;
    simpl in *; try lia; [repeat split|].
  destruct (IH c d ltac:(lia) ltac:(lia)) as (H1 & H2 & H3).
  now rewrite H1, H2, H3.
Qed.

Lemma length_Daily_Return (data : list Row) :
  length (Daily_Return (add_columns data)) = length data.
Proof.
  destruct data as [|[d c] data]; [reflexivity|].
  rewrite Daily_Return_closes. cbn [length].
  now autorewrite with series_length.
Qed.

(** X8.  The chart and the table show the download, row for row: the
    points of the chart are the dates and closes of the downloaded
    rows in their order; the table has one row per downloaded row,
    with the date and the close of that row and its daily return; and
    there is one style per row of the table. *)
Theorem chart_and_table_show_the_download (data : list Row) :
  fig (add_columns data) = List.map (fun r => (fst r, Some (snd r))) data /\
  List.map (fun r => (Date r, Close_Price r)) (display_df (add_columns data))
  = List.map (fun r => (fst r, Some (snd r))) data /\
  List.map Table_Daily_Return (display_df (add_columns data))
  = Daily_Return (add_columns data) /\
  length (display_df (add_columns data)) = length data /\
  length (table_styles (add_columns data)) = length (display_df (add_columns data)).
Proof.
  assert (Hfig : fig (add_columns data)
                 = List.map (fun r => (fst r, Some (snd r))) data).
  { unfold fig, add_columns. cbn [index Close]. apply zip_rows_map. }
  destruct (zip_rows_three (index (add_columns data)) (Close (add_columns data))
              (Daily_Return (add_columns data))) as (H1 & H2 & H3).
  { unfold add_columns. cbn [index Close]. now rewrite !length_map. }
  { rewrite length_Daily_Return. unfold add_columns. cbn [index].
    now rewrite length_map. }
  assert (Hidx : length (index (add_columns data)) = length data).
  { unfold add_columns. cbn [index]. now rewrite length_map. }
  unfold display_df. rewrite !List.map_map, !length_map. cbn [Date Close_Price
    Table_Daily_Return].
  split; [exact Hfig|]. split; [now rewrite H1|]. split; [exact H2|].
  split; [now rewrite H3|].
  unfold table_styles. now rewrite length_map, length_Daily_Return, H3.
Qed.

(** ** The default dates *)

(** X9.  With the date fields left at their defaults (the last 365
    days, ending today) the run passes the date gate on every day:
    it never stops with the range message, and goes on to
    [get_stock_data] for the range from [today - 365] to [today]. *)
Theorem default_dates_pass_the_gate (today : date) :
  validate (default_start_date today) (default_end_date today) today = Ok /\
  forall (sqrt : Q -> Q) (P : Provider) (table : UpperTable) (text : str) (now : Z) (st : AppState),
    fst (run sqrt table P text (default_start_date today) (default_end_date today)
           today now st) <> StopRangeError /\
    snd (run sqrt table P text (default_start_date today) (default_end_date today)
           today now st)
    = snd (get_stock_data P (ticker table text) (today - 365)%Z today now st).
Proof.
  assert (Hv : validate (default_start_date today) (default_end_date today) today
               = Ok).
  { unfold validate, invalid_range, default_start_date, default_end_date.
    rewrite Z.ltb_irrefl.
    replace (today <? today - 365)%Z with false
      by (symmetry; apply Z.ltb_ge; lia).
    reflexivity. }
  split; [exact Hv|]. intros sqrt P table text now st. split.
  - unfold run. rewrite Hv.
    destruct (get_stock_data P (ticker table text) (default_start_date today)
                (default_end_date today) now st) as [df st'].
    destruct (render sqrt df); discriminate.
  - apply (run_state sqrt table P text _ _ today now st Hv).
Qed.

(** ** The shape of a ticker *)

Lemma upper_ascii_idempotent (c : N) :
  upper_ascii (upper_ascii c) = upper_ascii c.
Proof.
  destruct (upper_ascii_spec c) as [[Hc E]|[_ E]]; rewrite E; [|exact E].
  destruct (upper_ascii_spec (c - 32)) as [[Hc' _]|[_ E']]; [lia | exact E'].
Qed.

Lemma upper_ascii_below_128 (c : N) : (c < 128)%N -> (upper_ascii c < 128)%N.
Proof.
  intros H. destruct (upper_ascii_spec c) as [[Hc ->]|[_ ->]]; lia.
Qed.

Lemma upper_of_ascii_text (table : UpperTable) (s : list N) :
  ascii_text s -> upper table s = List.map upper_ascii s.
Proof.
  intros H. unfold upper. induction H as [|c s Hc _ IH]; [reflexivity|].
  cbn [flat_map List.map]. rewrite IH. unfold toupper_full.
  apply N.ltb_lt in Hc. now rewrite Hc.
Qed.

Lemma lstrip_chars_upper (l : list N) :
  lstrip_chars (List.map upper_ascii l) = List.map upper_ascii (lstrip_chars l).
Proof.
  induction l as [|c l IH]; [reflexivity|].
  cbn [List.map lstrip_chars]. rewrite isspace_upper_ascii.
  destruct (isspace c); [exact IH | reflexivity].
Qed.

Lemma rstrip_chars_upper (l : list N) :
  rstrip_chars (List.map upper_ascii l) = List.map upper_ascii (rstrip_chars l).
Proof.
  unfold rstrip_chars.
  now rewrite <- List.map_rev, lstrip_chars_upper, List.map_rev.
Qed.

Lemma ascii_text_lstrip (l : list N) : ascii_text l -> ascii_text (lstrip_chars l).
Proof.
  intros H. induction H as [|c l Hc Hl IH]; [constructor|].
  cbn [lstrip_chars]. destruct (isspace c); [exact IH | now constructor].
Qed.

Lemma ascii_text_rev (l : list N) : ascii_text l -> ascii_text (rev l).
Proof.
  unfold ascii_text. rewrite !List.Forall_forall. intros H c Hc.
  apply H. now apply List.in_rev.
Qed.

Lemma ascii_text_strip (l : list N) : ascii_text l -> ascii_text (strip l).
Proof.
  intros H. unfold strip, rstrip_chars.
  now apply ascii_text_rev, ascii_text_lstrip, ascii_text_rev, ascii_text_lstrip.
Qed.

Lemma ascii_text_upper (l : list N) :
  ascii_text l -> ascii_text (List.map upper_ascii l).
Proof.
  intros H. induction H; simpl; constructor;
    [now apply upper_ascii_below_128 | assumption].
Qed.

Lemma lstrip_chars_head (l : list N) :
  lstrip_chars l = [] \/
  exists c x, lstrip_chars l = c :: x /\ isspace c = false.
Proof.
  induction l as [|c l IH]; [now left|].
  cbn [lstrip_chars]. destruct (isspace c) eqn:E; [exact IH|].
  right. exists c, l. now split.
Qed.

Lemma lstrip_chars_nonspace (c : N) (x : list N) :
  isspace c = false -> lstrip_chars (c :: x) = c :: x.
Proof. intros E. cbn [lstrip_chars]. now rewrite E. Qed.

Lemma lstrip_chars_keeps_last (y : list N) (c : N) :
  isspace c = false -> exists z, lstrip_chars (y ++ [c]) = z ++ [c].
Proof.
  intros E. induction y as [|a y IH].
  - exists []. cbn [app lstrip_chars]. now rewrite E.
  - cbn [app lstrip_chars]. destruct (isspace a); [exact IH|].
    exists (a :: y). reflexivity.
Qed.

Lemma rstrip_chars_head (c : N) (x : list N) :
  isspace c = false -> exists w, rstrip_chars (c :: x) = c :: w.
Proof.
  intros E. unfold rstrip_chars. cbn [rev].
  destruct (lstrip_chars_keeps_last (rev x) c E) as [z ->].
  exists (rev z). now rewrite List.rev_app_distr.
Qed.

Lemma lstrip_chars_idempotent (l : list N) :
  lstrip_chars (lstrip_chars l) = lstrip_chars l.
Proof.
  destruct (lstrip_chars_head l) as [->|(c & x & -> & E)]; [reflexivity|].
  now apply lstrip_chars_nonspace.
Qed.

Lemma rstrip_chars_idempotent (l : list N) :
  rstrip_chars (rstrip_chars l) = rstrip_chars l.
Proof.
  unfold rstrip_chars. now rewrite List.rev_involutive, lstrip_chars_idempotent.
Qed.

Lemma strip_idempotent (l : list N) : strip (strip l) = strip l.
Proof.
  unfold strip.
  destruct (lstrip_chars_head l) as [->|(c & x & -> & E)]; [reflexivity|].
  destruct (rstrip_chars_head c x E) as [w Hw].
  rewrite Hw, (lstrip_chars_nonspace c w E), <- Hw.
  apply rstrip_chars_idempotent.
Qed.

Lemma lstrip_chars_nil_iff (l : list N) :
  lstrip_chars l = [] <-> Forall (fun c => isspace c = true) l.
Proof.
  induction l as [|c l IH]; [split; [constructor | reflexivity]|].
  cbn [lstrip_chars]. destruct (isspace c) eqn:E.
  - rewrite IH. split; [now constructor | intros H; now inversion H].
  - split; [discriminate|]. intros H. inversion H. congruence.
Qed.

Lemma strip_nil_iff (l : list N) : strip l = [] <-> all_space l.
Proof.
  unfold strip, all_space. rewrite <- lstrip_chars_nil_iff. split.
  - intros H.
    destruct (lstrip_chars_head l) as [E|(c & x & E & Hc)]; [exact E|].
    rewrite E in H. destruct (rstrip_chars_head c x Hc) as [w Hw].
    rewrite Hw in H. discriminate.
  - intros ->. reflexivity.
Qed.

Lemma all_space_upper_iff (l : list N) :
  all_space (List.map upper_ascii l) <-> all_space l.
Proof.
  unfold all_space. induction l as [|c l IH]; simpl.
  - split; constructor.
  - split; intros H; inversion H as [|? ? Hc Hl]; subst; constructor;
      try (now apply IH); now rewrite isspace_upper_ascii in *.
Qed.

(** X10.  The ticker of an ASCII text is in normal form: putting it in
    upper case, stripping it, or passing it through the ticker field
    again does not change it.  It is the empty string exactly when
    the text is empty or all white space. *)
Theorem ticker_normal_form (table : UpperTable) (text : str) :
  ascii_text text ->
  upper table (ticker table text) = ticker table text /\
  strip (ticker table text) = ticker table text /\
  ticker table (ticker table text) = ticker table text /\
  (ticker table text = [] <-> all_space text).
Proof.
  intros Hascii.
  assert (Et : ticker table text = strip (List.map upper_ascii text)).
  { unfold ticker. now rewrite (upper_of_ascii_text table text Hascii). }
  assert (Hu : upper table (ticker table text) = ticker table text).
  { rewrite Et.
    rewrite upper_of_ascii_text
      by now apply ascii_text_strip, ascii_text_upper.
    unfold strip. rewrite <- rstrip_chars_upper, <- lstrip_chars_upper.
    rewrite List.map_map.
    do 2 f_equal. apply List.map_ext. intros c. apply upper_ascii_idempotent. }
  assert (Hs : strip (ticker table text) = ticker table text).
  { unfold ticker. apply strip_idempotent. }
  split; [exact Hu|]. split; [exact Hs|]. split.
  - unfold ticker at 1. now rewrite Hu, Hs.
  - rewrite Et, strip_nil_iff. apply all_space_upper_iff.
Qed.

Lemma ticker_normal_form_witness :
  upper upper_table_excerpt (ticker upper_table_excerpt aapl_padded)
  = ticker upper_table_excerpt aapl_padded /\
  strip (ticker upper_table_excerpt aapl_padded)
  = ticker upper_table_excerpt aapl_padded /\
  ticker upper_table_excerpt (ticker upper_table_excerpt aapl_padded)
  = ticker upper_table_excerpt aapl_padded /\
  (ticker upper_table_excerpt aapl_padded = [] <-> all_space aapl_padded).
Proof.
  apply (ticker_normal_form upper_table_excerpt aapl_padded).
  unfold ascii_text, aapl_padded.
  repeat (apply List.Forall_cons; [reflexivity|]). apply List.Forall_nil.
Defined.

(** ** Calls for different keys *)

Lemma cache_after_call (P : Provider) (tk : str) (s e : date) (now : Z)
    (st : AppState) :
  cache (snd (get_stock_data P tk s e now st)) = cache st \/
  cache (snd (get_stock_data P tk s e now st))
  = <[(tk, s, e) := {| value := process_download (P tk s e now);
                       stored_at := now |}]> (cache st).
Proof.
  destruct (hit st (tk, s, e) now) eqn:H.
  - destruct (hit_served P tk s e now st H) as (en & _ & _ & ->). now left.
  - rewrite (get_stock_data_miss P tk s e now st H). now right.
Qed.

Lemma call_reads_own_entry (P : Provider) (tk : str) (s e : date) (now : Z)
    (st st' : AppState) :
  cache st' !! (tk, s, e) = cache st !! (tk, s, e) ->
  fst (get_stock_data P tk s e now st') = fst (get_stock_data P tk s e now st) /\
  hit st' (tk, s, e) now = hit st (tk, s, e) now.
Proof.
  intros H. unfold get_stock_data, hit. rewrite H.
  destruct (cache st !! (tk, s, e)) as [en|]; [|now split].
  destruct (now - stored_at en <? ttl)%Z; now split.
Qed.

(** X11.  A call for one key neither stores, refreshes nor removes
    the entry of another key: after it, a call for the other key
    returns what it would have returned without it, and is a hit or a
    miss as it would have been. *)
Theorem calls_for_other_keys_do_not_interfere (P : Provider)
    (tk tk' : str) (s e s' e' : date) (t1 t2 : Z) (st : AppState) :
  (tk, s, e) <> (tk', s', e') ->
  cache (snd (get_stock_data P tk s e t1 st)) !! (tk', s', e')
  = cache st !! (tk', s', e') /\
  fst (get_stock_data P tk' s' e' t2 (snd (get_stock_data P tk s e t1 st)))
  = fst (get_stock_data P tk' s' e' t2 st) /\
  hit (snd (get_stock_data P tk s e t1 st)) (tk', s', e') t2
  = hit st (tk', s', e') t2.
Proof.
  intros Hne.
  assert (Hc : cache (snd (get_stock_data P tk s e t1 st)) !! (tk', s', e')
               = cache st !! (tk', s', e')).
  { destruct (cache_after_call P tk s e t1 st) as [-> | ->]; [reflexivity|].
    now apply lookup_insert_ne. }
  split; [exact Hc|]. now apply call_reads_own_entry.
Qed.

Lemma calls_for_other_keys_do_not_interfere_witness :
  cache (snd (get_stock_data provider_until_3600 AAPL 0 1 5 empty_state))
    !! (MSFT, 0%Z, 1%Z)
  = cache empty_state !! (MSFT, 0%Z, 1%Z) /\
  fst (get_stock_data provider_until_3600 MSFT 0 1 7
         (snd (get_stock_data provider_until_3600 AAPL 0 1 5 empty_state)))
  = fst (get_stock_data provider_until_3600 MSFT 0 1 7 empty_state) /\
  hit (snd (get_stock_data provider_until_3600 AAPL 0 1 5 empty_state))
    (MSFT, 0%Z, 1%Z) 7
  = hit empty_state (MSFT, 0%Z, 1%Z) 7.
Proof.
  apply (calls_for_other_keys_do_not_interfere provider_until_3600
           AAPL MSFT 0 1 0 1 5 7 empty_state).
  discriminate.
Defined.

(** ** What the cache holds and what a call returns *)

Lemma cache_fresh_later (P : Provider) (st : AppState) (t0 now : Z) :
  cache_fresh P st t0 -> (t0 <= now)%Z -> cache_fresh P st now.
Proof.
  intros H Ht tk s e en Hk. destruct (H tk s e en Hk) as [H1 H2].
  split; [lia | exact H2].
Qed.

Lemma cache_fresh_empty (P : Provider) (now : Z) : cache_fresh P empty_state now.
Proof. intros tk s e en H. unfold empty_state in H. cbn [cache] in H.
  rewrite lookup_empty in H. discriminate H. Qed.

Lemma get_stock_data_fresh (P : Provider) (tk : str) (s e : date)
    (t0 now : Z) (st : AppState) :
  cache_fresh P st t0 -> (t0 <= now)%Z ->
  cache_fresh P (snd (get_stock_data P tk s e now st)) now /\
  exists t' : Z,
    (now - ttl < t' <= now)%Z /\
    fst (get_stock_data P tk s e now st) = process_download (P tk s e t').
Proof.
  intros Hf Ht. pose proof (cache_fresh_later P st t0 now Hf Ht) as Hnow.
  destruct (hit st (tk, s, e) now) eqn:H.
  - destruct (hit_served P tk s e now st H) as (en & Hk & Hage & ->).
    cbn [fst snd]. split; [exact Hnow|].
    destruct (Hnow tk s e en Hk) as [Hle Hv].
    exists (stored_at en). split; [lia | exact Hv].
  - rewrite (get_stock_data_miss P tk s e now st H). cbn [fst snd]. split.
    + intros tk0 s0 e0 en Hk. cbn [cache] in Hk.
      destruct (decide ((tk0, s0, e0) = (tk, s, e))) as [E|E].
      * injection E as -> -> ->. rewrite lookup_insert_eq in Hk.
        injection Hk as <-. cbn [stored_at value]. split; [lia | reflexivity].
      * rewrite lookup_insert_ne in Hk by congruence. now apply Hnow.
    + exists now. split; [unfold ttl; lia | reflexivity].
Qed.

(** X12.  When every entry of the cache holds the provider's answer
    of the time it was stored, and none is stored in the future, a
    call leaves the cache so, and what it returns is made of an
    answer of the provider for its key that is less than 3600 seconds
    old: the answer of [now] on a miss, the stored one on a hit. *)
Theorem calls_return_fresh_answers (P : Provider) (tk : str) (s e : date)
    (t0 now : Z) (st : AppState) :
  cache_fresh P st t0 -> (t0 <= now)%Z ->
  cache_fresh P (snd (get_stock_data P tk s e now st)) now /\
  exists t' : Z,
    (now - 3600 < t' <= now)%Z /\
    fst (get_stock_data P tk s e now st) = process_download (P tk s e t').
Proof.
  intros Hf Ht.
  destruct (get_stock_data_fresh P tk s e t0 now st Hf Ht) as (Hc & t' & Hb & Hv).
  split; [exact Hc|]. exists t'. split; [|exact Hv].
  unfold ttl in Hb. lia.
Qed.

Lemma calls_return_fresh_answers_witness :
  cache_fresh provider_until_3600
    (snd (get_stock_data provider_until_3600 AAPL 0 1 4000 state_after_call_at_0))
    4000 /\
  exists t' : Z,
    (4000 - 3600 < t' <= 4000)%Z /\
    fst (get_stock_data provider_until_3600 AAPL 0 1 4000 state_after_call_at_0)
    = process_download (provider_until_3600 AAPL 0%Z 1%Z t').
Proof.
  apply (calls_return_fresh_answers provider_until_3600 AAPL 0 1 0 4000
           state_after_call_at_0).
  - unfold state_after_call_at_0.
    apply (get_stock_data_fresh provider_until_3600 AAPL 0 1 0 0 empty_state).
    + apply cache_fresh_empty.
    + lia.
  - lia.
Defined.

(** ** How a run ends *)

(** X13.  From a state whose cache holds answers of the provider (as
    the empty state does, and as every run leaves it), a run never
    raises: it stops with the range message exactly when the dates
    are invalid, stops with the no-data message, or renders a page;
    and a rendered page shows the data frame, the four numbers and
    the styles of a non-empty answer of the provider for the ticker
    and the dates of the run that is less than 3600 seconds old. *)
Theorem run_never_raises (sqrt : Q -> Q) (P : Provider) (table : UpperTable) (text : str)
    (start_date end_date today : date) (t0 now : Z) (st : AppState) :
  cache_fresh P st t0 -> (t0 <= now)%Z ->
  let r := run sqrt table P text start_date end_date today now st in
  cache_fresh P (snd r) now /\
  fst r <> RaisedIndexError /\
  (fst r = StopRangeError <-> validate start_date end_date today = RangeError) /\
  (forall p : Page,
     fst r = Rendered p ->
     exists t' : Z,
       (now - 3600 < t' <= now)%Z /\
       P (ticker table text) start_date end_date t' <> [] /\
       computeMetrics sqrt (P (ticker table text) start_date end_date t')
       = Result (page_df p) (page_metrics p) /\
       page_df p = add_columns (P (ticker table text) start_date end_date t') /\
       page_styles p = table_styles (page_df p)).
Proof.
  intros Hf Ht r. subst r. unfold run.
  destruct (validate start_date end_date today) eqn:Hv.
  - destruct (get_stock_data_fresh P (ticker table text) start_date end_date t0 now st
                Hf Ht) as (Hc & t' & Hb & Hval).
    destruct (get_stock_data P (ticker table text) start_date end_date now st)
      as [odf st'].
    cbn [fst snd] in Hc, Hval. subst odf.
    change (render sqrt (process_download (P (ticker table text) start_date end_date t')))
      with (computeMetrics sqrt (P (ticker table text) start_date end_date t')).
    destruct (P (ticker table text) start_date end_date t') as [|row data] eqn:Hd.
    + cbn [computeMetrics process_download render fst snd].
      split; [exact Hc|]. split; [discriminate|].
      split; [split; discriminate|].
      intros p Hp. discriminate Hp.
    + destruct (computeMetrics_rows sqrt row data) as (tr & _ & Hm).
      rewrite Hm. cbn [fst snd].
      split; [exact Hc|]. split; [discriminate|].
      split; [split; discriminate|].
      intros p Hp. injection Hp as <-. exists t'.
      split; [unfold ttl in Hb; lia|].
      rewrite Hd. cbn [page_df page_metrics page_styles].
      split; [discriminate|]. split; [exact Hm|]. split; reflexivity.
  - cbn [fst snd]. split; [exact (cache_fresh_later P st t0 now Hf Ht)|].
    split; [discriminate|]. split; [split; reflexivity|].
    intros p Hp. discriminate Hp.
Qed.

Lemma run_never_raises_witness :
  let r := run sqrt_6dp upper_table_excerpt provider_const aapl_padded 0 1 2 5 empty_state in
  cache_fresh provider_const (snd r) 5 /\
  fst r <> RaisedIndexError /\
  (fst r = StopRangeError <-> validate 0 1 2 = RangeError) /\
  (forall p : Page,
     fst r = Rendered p ->
     exists t' : Z,
       (5 - 3600 < t' <= 5)%Z /\
       provider_const (ticker upper_table_excerpt aapl_padded) 0%Z 1%Z t' <> [] /\
       computeMetrics sqrt_6dp (provider_const (ticker upper_table_excerpt aapl_padded) 0%Z 1%Z t')
       = Result (page_df p) (page_metrics p) /\
       page_df p = add_columns (provider_const (ticker upper_table_excerpt aapl_padded) 0%Z 1%Z t') /\
       page_styles p = table_styles (page_df p)).
Proof.
  apply (run_never_raises sqrt_6dp provider_const upper_table_excerpt aapl_padded
           0 1 2 0 5 empty_state).
  - apply cache_fresh_empty.
  - lia.
Defined.

(** ** The provider is spared *)

Lemma lookup_snoc_cases {A : Type} (l : list A) (x y : A) (j : nat) :
  (l ++ [x]) !! j = Some y ->
  ((j < length l)%nat /\ l !! j = Some y) \/ (j = length l /\ y = x).
Proof.
  intros H. destruct (decide (j < length l)%nat) as [Hj|Hj].
  - left. split; [exact Hj|]. now rewrite lookup_app_l in H.
  - right. rewrite lookup_app_r in H by lia.
    destruct (j - length l)%nat as [|n] eqn:E; simpl in H; [|discriminate].
    split; [lia | congruence].
Qed.

Lemma downloads_spaced_empty : downloads_spaced empty_state.
Proof. split; intros; discriminate. Qed.

Lemma get_stock_data_keeps_spaced (P : Provider) (tk : str) (s e : date)
    (now : Z) (st : AppState) :
  downloads_spaced st ->
  downloads_spaced (snd (get_stock_data P tk s e now st)).
Proof.
  intros [Hsp Hen].
  destruct (hit st (tk, s, e) now) eqn:H.
  - destruct (hit_served P tk s e now st H) as (en & _ & _ & ->).
    cbn [snd]. now split.
  - rewrite (get_stock_data_miss P tk s e now st H). cbn [snd].
    assert (Hold : forall (i : nat) (t : Z),
              downloads st !! i = Some ((tk, s, e), t) -> (t + ttl <= now)%Z).
    { intros i t Hi. destruct (Hen i _ t Hi) as (en & Hk & Hle).
      rewrite (hit_of_entry st _ now en Hk) in H. apply Z.ltb_ge in H. lia. }
    split; cbn [downloads cache].
    + intros i j key t1 t2 Hij Hi Hj.
      apply lookup_snoc_cases in Hj as [[Hjl Hj]|[-> Hj]].
      * rewrite lookup_app_l in Hi by lia. exact (Hsp i j key t1 t2 Hij Hi Hj).
      * rewrite lookup_app_l in Hi by lia. injection Hj as -> ->.
        exact (Hold i t1 Hi).
    + intros i key t Hi.
      apply lookup_snoc_cases in Hi as [[_ Hi]|[_ Hi]].
      * destruct (decide (key = (tk, s, e))) as [->|Hne].
        -- rewrite lookup_insert_eq. eexists. split; [reflexivity|].
           cbn [stored_at]. pose proof (Hold i t Hi). unfold ttl in *. lia.
        -- rewrite lookup_insert_ne by congruence. exact (Hen i key t Hi).
      * injection Hi as -> ->. rewrite lookup_insert_eq.
        eexists. split; [reflexivity|]. cbn [stored_at]. lia.
Qed.

(** X15.  The provider is never asked twice for the same ticker and
    dates within 3600 seconds: a run keeps the log of the downloads
    spaced (as it is in the empty state), so that in the state it
    leaves any two downloads for the same key are at least 3600
    seconds apart, whatever the order of the times of the runs.  In
    the example below a run at 4000 follows a download at 0: the log
    then holds both, 4000 seconds apart. *)
Theorem runs_keep_downloads_spaced (sqrt : Q -> Q) (P : Provider)
    (table : UpperTable) (text : str) (start_date end_date today : date) (now : Z)
    (st : AppState) :
  downloads_spaced st ->
  downloads_spaced
    (snd (run sqrt table P text start_date end_date today now st)) /\
  forall (i j : nat) (key : Key) (t1 t2 : Z),
    (i < j)%nat ->
    downloads (snd (run sqrt table P text start_date end_date today now st)) !! i
    = Some (key, t1) ->
    downloads (snd (run sqrt table P text start_date end_date today now st)) !! j
    = Some (key, t2) ->
    (t1 + 3600 <= t2)%Z.
Proof.
  intros Hst.
  assert (H : downloads_spaced
                (snd (run sqrt table P text start_date end_date today now st))).
  { destruct (validate start_date end_date today) eqn:Hv.
    - rewrite (run_state sqrt table P text _ _ today now st Hv).
      now apply get_stock_data_keeps_spaced.
    - unfold run. rewrite Hv. exact Hst. }
  split; [exact H|]. exact (proj1 H).
Qed.

Lemma runs_keep_downloads_spaced_witness :
  downloads
    (snd (run sqrt_6dp upper_table_excerpt provider_until_3600 aapl_padded
            0 1 2 4000 state_after_call_at_0))
  = [((AAPL, 0%Z, 1%Z), 0%Z); ((AAPL, 0%Z, 1%Z), 4000%Z)] /\
  (downloads_spaced
     (snd (run sqrt_6dp upper_table_excerpt provider_until_3600 aapl_padded
             0 1 2 4000 state_after_call_at_0)) /\
   forall (i j : nat) (key : Key) (t1 t2 : Z),
     (i < j)%nat ->
     downloads
       (snd (run sqrt_6dp upper_table_excerpt provider_until_3600 aapl_padded
               0 1 2 4000 state_after_call_at_0)) !! i
     = Some (key, t1) ->
     downloads
       (snd (run sqrt_6dp upper_table_excerpt provider_until_3600 aapl_padded
               0 1 2 4000 state_after_call_at_0)) !! j
     = Some (key, t2) ->
     (t1 + 3600 <= t2)%Z).
Proof.
  split; [vm_compute; reflexivity|].
  apply (runs_keep_downloads_spaced sqrt_6dp provider_until_3600
           upper_table_excerpt aapl_padded 0 1 2 4000 state_after_call_at_0).
  unfold state_after_call_at_0.
  apply get_stock_data_keeps_spaced, downloads_spaced_empty.
Defined.
